(** * Sedaro Nano API: the HTTP server [app/app.py] and the simulation core it drives

    The development has two layers.

    - The boundary layer is [app/app.py]: the Flask application with its
      request hooks, the [GET /simulation] and [POST /simulation] views and the
      [Simulation] table.  It is embedded from the source, statement by
      statement, over explicit state (the table, the metric registry, the
      clocks and the log).
    - The core is the pair of modules [simulator] and [store] that [app.py]
      imports.  The boundary layer is written against their interface
      ([Core]); the design document's description of them (RangeStore,
      Integrator, SimulationRun) is embedded in [SpecCore], and in [Objects]
      as objects in the memory that the requests of one process share. *)

From Stdlib Require Import ZArith List String Bool Lia Floats DecimalString.
Import ListNotations.

Set Warnings "-inexact-float,-register-all".
Set Implicit Arguments.

Local Open Scope string_scope.

(** ** Python values, exceptions and dictionaries *)

Module Py.

(** The exception classes the model distinguishes.  All of them derive from
    Python's [Exception]. *)
Inductive exn : Type :=
| TypeError
| AttributeError
| KeyError
| ValueError
| HTTPException (code : Z)
| ValidationError
| NumericalError
| IndexingError.

(** A computation that returns or raises. *)
Inductive result (A : Type) : Type :=
| Ok (a : A)
| Raise (e : exn).

Arguments Ok {A} a.
Arguments Raise {A} e.

Definition bind {A B : Type} (m : result A) (k : A -> result B) : result B :=
  match m with
  | Ok a => k a
  | Raise e => Raise e
  end.

Definition is_ok {A : Type} (m : result A) : bool :=
  match m with
  | Ok _ => true
  | Raise _ => false
  end.

(** JSON-shaped Python objects.  A [dict] keeps its insertion order, so it
    is an association list; its keys are strings, as in every parsed JSON
    document. *)
Inductive value : Type :=
| VNone
| VBool (b : bool)
| VInt (z : Z)
| VFloat (f : float)
| VStr (s : string)
| VList (l : list value)
| VDict (d : list (string * value)).

Definition dict : Type := list (string * value).

(** [d[k]] read. *)
Fixpoint dict_get {V : Type} (d : list (string * V)) (k : string) : option V :=
  match d with
  | [] => None
  | (k', v) :: rest => if String.eqb k k' then Some v else dict_get rest k
  end.

(** [d[k] = v]: an existing key keeps its place, a new key goes last. *)
Fixpoint dict_set {V : Type} (d : list (string * V)) (k : string) (v : V)
    : list (string * V) :=
  match d with
  | [] => [(k, v)]
  | (k', v') :: rest =>
      if String.eqb k k' then (k', v) :: rest else (k', v') :: dict_set rest k v
  end.

(** [d.keys()], in iteration order. *)
Definition keys {V : Type} (d : list (string * V)) : list string := map fst d.

(** Truth value of an object, as [or], [if] and [not] test it. *)
Definition truthy (v : value) : bool :=
  match v with
  | VNone => false
  | VBool b => b
  | VInt z => negb (Z.eqb z 0)
  | VFloat f => negb (PrimFloat.eqb f 0%float)
  | VStr s => negb (String.eqb s "")
  | VList l => match l with [] => false | _ :: _ => true end
  | VDict d => match d with [] => false | _ :: _ => true end
  end.

(** [a or b]. *)
Definition or_else (a b : value) : value := if truthy a then a else b.

(** [o.keys()]: only a dict has the method. *)
Definition keys_of (o : value) : result (list string) :=
  match o with
  | VDict d => Ok (keys d)
  | _ => Raise AttributeError
  end.

(** [o[k]] for a string [k]. *)
Definition getitem (o : value) (k : string) : result value :=
  match o with
  | VDict d => match dict_get d k with
               | Some v => Ok v
               | None => Raise KeyError
               end
  | _ => Raise TypeError
  end.

(** [o[k] = v] for a string [k]: the updated object.  Lists index by
    integers only and the scalar types support no item assignment. *)
Definition setitem (o : value) (k : string) (v : value) : result value :=
  match o with
  | VDict d => Ok (VDict (dict_set d k v))
  | _ => Raise TypeError
  end.

End Py.

Import Py.

Declare Scope py_scope.
Delimit Scope py_scope with py.
Notation "x <- m ;; k" := (bind m (fun x => k))
  (at level 61, m at next level, right associativity) : py_scope.
Local Open Scope py_scope.

(** ** The [Simulation] table *)

Module Db.

(** [class Simulation(db.Model)]: an integer primary key and the stored
    text. *)
Record Simulation : Type := mkSimulation { id : Z; data : string }.

(** The table's rows, in the order they were committed. *)
Definition table : Type := list Simulation.

(** The key SQLite gives a new row of an [INTEGER PRIMARY KEY] table: one
    more than the greatest key in use, 1 in an empty table.  That is
    SQLite's rule as long as the greatest key in use is below
    9223372036854775807 (2^63 - 1); on a table that holds that key SQLite
    tries unused keys at random instead, which this function does not
    follow. *)
Definition next_id (t : table) : Z :=
  match t with
  | [] => 1%Z
  | r :: rest => (fold_right (fun r' acc => Z.max (id r') acc) (id r) rest + 1)%Z
  end.

(** [db.session.add(Simulation(data=d)); db.session.commit()]. *)
Definition add_commit (t : table) (d : string) : table :=
  (t ++ [mkSimulation (next_id t) d])%list.

(** [ORDER BY id DESC]: insertion of a row into a list sorted by
    decreasing key, and the sort built on it. *)
Fixpoint insert_desc (r : Simulation) (l : list Simulation) : list Simulation :=
  match l with
  | [] => [r]
  | r' :: rest =>
      if Z.leb (id r') (id r) then r :: l else r' :: insert_desc r rest
  end.

Definition order_by_id_desc (t : table) : list Simulation :=
  fold_right insert_desc [] t.

(** [.first()]. *)
Definition first (l : list Simulation) : option Simulation := hd_error l.

End Db.

(** ** The environment of the application

    The libraries and the operating system the server calls into: the
    Prometheus client (a label lookup or an observation may raise), the two
    clocks ([time.perf_counter] and [datetime.now], each an arbitrary
    sequence of readings) and [json.dumps]. *)

Class Env : Type := {
  registry : Type;
  (** [REQUEST_LATENCY.labels(method, path).observe(latency)] *)
  REQUEST_LATENCY_observe : registry -> string -> string -> float -> result registry;
  (** [REQUEST_COUNT.labels(method, path, status).inc()] *)
  REQUEST_COUNT_inc : registry -> string -> string -> string -> result registry;
  (** leaving the block of [with SIMULATION_DURATION.time()] *)
  SIMULATION_DURATION_observe : registry -> float -> registry;
  (** [generate_latest()] *)
  generate_latest : registry -> string;
  CONTENT_TYPE_LATEST : string;
  (** the n-th reading of [time.perf_counter()] and of [datetime.now()] *)
  perf_counter_at : nat -> float;
  datetime_now_at : nat -> float;
  (** [json.dumps] *)
  dumps : value -> string
}.

(** ** The interface of the core

    What [app.py] uses of the modules [simulator] and [store]: the
    constructor [QRangeStore()], the constructor
    [Simulator(store=store, init=init)], the method [simulate()] and the
    attribute [store.store].  The simulator keeps a reference to the store it
    was given and writes to it, so both operations take the store's state and
    give it back. *)

Class Core : Type := {
  QRangeStore : Type;
  Simulator : Type;
  QRangeStore_new : QRangeStore;
  Simulator_new : QRangeStore -> value -> result (Simulator * QRangeStore);
  Simulator_simulate : Simulator -> QRangeStore -> result (Simulator * QRangeStore);
  store_store : QRangeStore -> value
}.

(** ** The application [app/app.py] *)

Module App.

(** The Flask request, as far as the handlers read it: method and path,
    the [json] property (the parsed body, or the HTTP error Flask raises
    when the body is not JSON) and the attribute the timer hook adds. *)
Record request : Type := mkRequest {
  method : string;
  path : string;
  json : result value;
  _start_time : option float
}.

(** What a view function returns, before Flask turns it into a response. *)
Inductive view_result : Type :=
| ReturnStr (s : string)
| ReturnJson (v : value)
| ReturnTuple (body : string) (status : Z) (content_type : string).

Record response : Type := mkResponse {
  status_code : Z;
  payload : view_result
}.

(** [str(n)] for an integer. *)
Definition str (n : Z) : string := NilZero.string_of_int (Z.to_int n).

(** [o[k1][k2] = v]: the object [o[k1]] is updated in place, so [o] shows
    the update. *)
Definition setitem_in (o : value) (k1 k2 : string) (v : value) : result value :=
  inner <- getitem o k1 ;;
  inner' <- setitem inner k2 v ;;
  setitem o k1 inner'.

(** [for key in ks: body], threading the object the body updates. *)
Fixpoint for_each (ks : list string) (body : string -> value -> result value)
    (o : value) : result value :=
  match ks with
  | [] => Ok o
  | key :: rest => o' <- body key o ;; for_each rest body o'
  end.

(** Lines 111-113 of [simulate]:
<<
    for key in init.keys():
        init[key]["time"] = 0
        init[key]["timeStep"] = 0.01
>> *)
Definition define_times (init : value) : result value :=
  ks <- keys_of init ;;
  for_each ks
    (fun key init =>
       init <- setitem_in init key "time" (VInt 0) ;;
       setitem_in init key "timeStep" (VFloat 0.01))
    init.

Section WithEnv.

Context {env : Env}.

(** The state of the process: the [Simulation] table, the metric registry,
    how many times each clock has been read, and the log. *)
Record world : Type := mkWorld {
  simulations : Db.table;
  prometheus : registry;
  perf_reads : nat;
  datetime_reads : nat;
  log : list (string * float)
}.

(** Handlers run in a state-and-exception monad over [world]; what was
    done before an exception stays done. *)
Definition M (A : Type) : Type := world -> result A * world.

Definition ret {A : Type} (a : A) : M A := fun w => (Ok a, w).

Definition raise {A : Type} (e : exn) : M A := fun w => (Raise e, w).

Definition bindM {A B : Type} (m : M A) (k : A -> M B) : M B :=
  fun w =>
    match m w with
    | (Ok a, w') => k a w'
    | (Raise e, w') => (Raise e, w')
    end.

Definition lift {A : Type} (r : result A) : M A := fun w => (r, w).

(** [try: m  except Exception: h]. *)
Definition try_except {A : Type} (m : M A) (h : exn -> M A) : M A :=
  fun w =>
    match m w with
    | (Ok a, w') => (Ok a, w')
    | (Raise e, w') => h e w'
    end.

(** [time.perf_counter()] *)
Definition perf_counter : M float :=
  fun w =>
    (Ok (perf_counter_at (perf_reads w)),
     mkWorld (simulations w) (prometheus w) (S (perf_reads w)) (datetime_reads w) (log w)).

(** [datetime.now()] *)
Definition datetime_now : M float :=
  fun w =>
    (Ok (datetime_now_at (datetime_reads w)),
     mkWorld (simulations w) (prometheus w) (perf_reads w) (S (datetime_reads w)) (log w)).

(** [logging.info(f"{label}{duration}")] *)
Definition logging_info (label : string) (duration : float) : M unit :=
  fun w =>
    (Ok tt,
     mkWorld (simulations w) (prometheus w) (perf_reads w) (datetime_reads w)
             (log w ++ [(label, duration)])%list).

(** A fallible update of the metric registry. *)
Definition update_registry (f : registry -> result registry) : M unit :=
  fun w =>
    match f (prometheus w) with
    | Ok r => (Ok tt, mkWorld (simulations w) r (perf_reads w) (datetime_reads w) (log w))
    | Raise e => (Raise e, w)
    end.

(** [with SIMULATION_DURATION.time(): body]: the duration of the block is
    observed when the block is left, whether it returns or raises, and an
    exception goes on to the caller. *)
Definition with_SIMULATION_DURATION_time {A : Type} (body : M A) : M A :=
  fun w =>
    match perf_counter w with
    | (Ok start, w1) =>
        match body w1 with
        | (r, w2) =>
            match perf_counter w2 with
            | (Ok stop, w3) =>
                (r, mkWorld (simulations w3)
                            (SIMULATION_DURATION_observe (prometheus w3) (stop - start)%float)
                            (perf_reads w3) (datetime_reads w3) (log w3))
            | (Raise e, w3) => (Raise e, w3)
            end
        end
    | (Raise e, w1) => (Raise e, w1)
    end.

(** [Simulation.query.order_by(Simulation.id.desc()).first()] *)
Definition query_latest : M (option Db.Simulation) :=
  fun w => (Ok (Db.first (Db.order_by_id_desc (simulations w))), w).

(** [db.session.add(Simulation(data=d)); db.session.commit()] *)
Definition session_add_commit (d : string) : M unit :=
  fun w =>
    (Ok tt,
     mkWorld (Db.add_commit (simulations w) d) (prometheus w)
             (perf_reads w) (datetime_reads w) (log w)).

Declare Scope app_scope.
Delimit Scope app_scope with app.
Notation "x <- m ;; k" := (bindM m (fun x => k))
  (at level 61, m at next level, right associativity) : app_scope.
Notation "' pat <- m ;; k" := (bindM m (fun x => match x with pat => k end))
  (at level 61, pat pattern, m at next level, right associativity) : app_scope.
Local Open Scope app_scope.

(** *** Request hooks *)

(** [@app.before_request]: [request._start_time = time.perf_counter()] *)
Definition _start_timer (req : request) : M request :=
  t <- perf_counter ;;
  ret (mkRequest (method req) (path req) (json req) (Some t)).

(** [@app.after_request] *)
Definition _record_metrics (req : request) (resp : response) : M response :=
  _ <- try_except
         (let start := _start_time req in
          match start with
          | Some start =>
              now <- perf_counter ;;
              let latency := (now - start)%float in
              let path := if String.eqb (path req) "" then "/" else path req in
              _ <- update_registry
                     (fun r => REQUEST_LATENCY_observe r (method req) path latency) ;;
              update_registry
                (fun r => REQUEST_COUNT_inc r (method req) path (str (status_code resp)))
          | None => ret tt
          end)
         (fun _ => ret tt) ;;
  ret resp.

(** *** Views *)

(** [GET /metrics] *)
Definition metrics : M view_result :=
  fun w => (Ok (ReturnTuple (generate_latest (prometheus w)) 200 CONTENT_TYPE_LATEST), w).

(** [GET /] *)
Definition health : M view_result :=
  ret (ReturnStr "<p>Sedaro Nano API - running!</p>").

(** [GET /simulation] *)
Definition get_data : M view_result :=
  simulation <- query_latest ;;
  ret (match simulation with
       | Some simulation => ReturnStr (Db.data simulation)
       | None => ReturnJson (VList [])
       end).

(** [POST /simulation] *)
Definition simulate {core : Core} (req : request) : M view_result :=
  with_SIMULATION_DURATION_time
    (body <- lift (json req) ;;
     let init := or_else body (VDict []) in
     init <- lift (define_times init) ;;
     t <- datetime_now ;;
     let store := QRangeStore_new in
     '(simulator, store) <- lift (Simulator_new store init) ;;
     t' <- datetime_now ;;
     _ <- logging_info "Time to Build: " (t' - t)%float ;;
     t <- datetime_now ;;
     '(simulator, store) <- lift (Simulator_simulate simulator store) ;;
     t' <- datetime_now ;;
     _ <- logging_info "Time to Simulate: " (t' - t)%float ;;
     _ <- session_add_commit (dumps (store_store store)) ;;
     ret (ReturnJson (store_store store))).

(** *** Flask's request cycle *)

(** The response Flask makes of a view's return value. *)
Definition make_response (rv : view_result) : response :=
  match rv with
  | ReturnTuple _ status _ => mkResponse status rv
  | _ => mkResponse 200 rv
  end.

(** The response Flask makes of an exception that left a view: an HTTP
    error keeps its status, anything else is a 500. *)
Definition handle_exception (e : exn) : response :=
  match e with
  | HTTPException code => mkResponse code (ReturnStr "")
  | _ => mkResponse 500 (ReturnStr "")
  end.

(** The response Flask gives to [OPTIONS] on a route. *)
Definition default_options_response : M view_result :=
  ret (ReturnTuple "" 200 "text/html; charset=utf-8").

(** The URL map: the four routes of the application.  A [GET] route also
    answers [HEAD], every route answers [OPTIONS], another method on a known
    path is a 405 and an unknown path a 404. *)
Definition dispatch_request {core : Core} (req : request) : M view_result :=
  let get := String.eqb (method req) "GET" || String.eqb (method req) "HEAD" in
  let options := String.eqb (method req) "OPTIONS" in
  if String.eqb (path req) "/" then
    if get then health
    else if options then default_options_response
    else raise (HTTPException 405)
  else if String.eqb (path req) "/metrics" then
    if get then metrics
    else if options then default_options_response
    else raise (HTTPException 405)
  else if String.eqb (path req) "/simulation" then
    if get then get_data
    else if String.eqb (method req) "POST" then simulate req
    else if options then default_options_response
    else raise (HTTPException 405)
  else raise (HTTPException 404).

(** One request: the before-request hook, the view, the after-request
    hook. *)
Definition full_dispatch_request {core : Core} (req : request) : M response :=
  req <- _start_timer req ;;
  resp <- try_except
            (rv <- dispatch_request req ;; ret (make_response rv))
            (fun e => ret (handle_exception e)) ;;
  _record_metrics req resp.

Definition wsgi_app {core : Core} (req : request) (w : world) : response * world :=
  match full_dispatch_request req w with
  | (Ok resp, w') => (resp, w')
  | (Raise e, w') => (handle_exception e, w')
  end.

(** The server handling a sequence of requests, one after the other. *)
Fixpoint serve {core : Core} (reqs : list request) (w : world) : list response * world :=
  match reqs with
  | [] => ([], w)
  | req :: rest =>
      let (resp, w') := wsgi_app req w in
      let (resps, w'') := serve rest w' in
      (resp :: resps, w'')
  end.

(** The process after start-up: [db.create_all()] on a new database. *)
Definition initial_world (r : registry) : world := mkWorld [] r 0 0 [].

End WithEnv.

End App.

(** ** The core, as the design document describes it

    The modules [simulator] and [store] are not among the sources; this is
    the design document's RangeStore, Integrator and SimulationRun
    (sections 3, 4 and 7).  Numbers are binary64 floats.  The document
    leaves the interaction law open, so it is a parameter: [interaction dx
    dy dist] is the contribution to an agent's acceleration of another agent
    at separation [(dx, dy)] and distance [dist]. *)

Module SpecCore.

(** Modelled from the spec: the agent state of section 3, a record of
    position, velocity, current time and time step. *)
Record AgentState : Type := mkAgentState {
  x : float;
  y : float;
  vx : float;
  vy : float;
  time : float;
  timeStep : float
}.

(** Modelled from the spec: the interval record of section 3, the triple
    [(start_time, end_time, agent_state)]. *)
Record Interval : Type := mkInterval {
  start_time : float;
  end_time : float;
  state : AgentState
}.

(** Modelled from the spec: the RangeStore of section 4.1, the ordered
    sequence of interval records of each agent. *)
Definition RangeStore : Type := list (string * list Interval).

(** Modelled from the spec: the agent registry of section 3, from agent name
    to current state, in the order of the initial-conditions document. *)
Definition Registry : Type := list (string * AgentState).

(** Modelled from the spec: the sequence of one agent in the store (empty
    for an agent the store does not know). *)
Definition records (store : RangeStore) (agent_name : string) : list Interval :=
  match dict_get store agent_name with
  | Some l => l
  | None => []
  end.

(** Modelled from the spec: the last element of a sequence. *)
Fixpoint last_record (l : list Interval) : option Interval :=
  match l with
  | [] => None
  | [r] => Some r
  | _ :: rest => last_record rest
  end.

(** Modelled from the spec: [append] of section 4.1.  The start must equal
    the end of the agent's last interval when there is one, and the end must
    be greater than the start; a violation is an IndexingError. *)
Definition append (store : RangeStore) (agent_name : string)
    (start_time end_time : float) (state : AgentState) : result RangeStore :=
  let rs := records store agent_name in
  let contiguous :=
    match last_record rs with
    | Some r => (SpecCore.end_time r =? start_time)%float
    | None => true
    end in
  if contiguous && (start_time <? end_time)%float
  then Ok (dict_set store agent_name (rs ++ [mkInterval start_time end_time state])%list)
  else Raise IndexingError.

(** Modelled from the spec: the search of [query] over one ordered
    sequence: the record whose [[start_time, end_time)] contains [t], or the
    last record when [t] is its end. *)
Fixpoint find_interval (l : list Interval) (t : float) : option Interval :=
  match l with
  | [] => None
  | r :: rest =>
      if (start_time r <=? t)%float && (t <? end_time r)%float then Some r
      else match rest with
           | [] => if (t =? end_time r)%float then Some r else None
           | _ :: _ => find_interval rest t
           end
  end.

(** Modelled from the spec: [query] of section 4.1. *)
Definition query (store : RangeStore) (agent_name : string) (t : float)
    : option Interval :=
  find_interval (records store agent_name) t.

(** Modelled from the spec: [query_range] of section 4.1, the records that
    overlap [[start, stop)], in order. *)
Definition query_range (store : RangeStore) (agent_name : string)
    (start stop : float) : list Interval :=
  filter (fun r => (start_time r <? stop)%float && (start <? end_time r)%float)
         (records store agent_name).

(** Modelled from the spec: the JSON form of an agent state. *)
Definition export_state (a : AgentState) : value :=
  VDict [("x", VFloat (x a)); ("y", VFloat (y a));
         ("vx", VFloat (vx a)); ("vy", VFloat (vy a));
         ("time", VFloat (time a)); ("timeStep", VFloat (timeStep a))].

(** Modelled from the spec: the JSON form of an interval record, an object
    [{start_time, end_time, state}] (section 6). *)
Definition export_interval (r : Interval) : value :=
  VDict [("start_time", VFloat (start_time r));
         ("end_time", VFloat (end_time r));
         ("state", export_state (state r))].

(** Modelled from the spec: [export] of section 4.1, the mapping from agent
    name to its ordered sequence. *)
Definition export (store : RangeStore) : value :=
  VDict (map (fun entry => (fst entry, VList (map export_interval (snd entry)))) store).

(** Modelled from the spec: the value of a JSON number as a binary64
    float; an integer is rounded to the nearest float. *)
Definition float_of_Z (z : Z) : float :=
  SF2Prim (binary_normalize prec emax z 0%Z false).

(** Modelled from the spec: a numeric field (section 4.3, "all numeric"). *)
Definition numeric (v : value) : option float :=
  match v with
  | VInt z => Some (float_of_Z z)
  | VFloat f => Some f
  | _ => None
  end.

(** Modelled from the spec: a required numeric field of an agent object. *)
Definition field (d : dict) (k : string) : option float :=
  match dict_get d k with
  | Some v => numeric v
  | None => None
  end.

(** Modelled from the spec: the field names of an agent object: position,
    velocity, time and step size, with the names [app.py] uses. *)
Definition known_fields : list string := ["x"; "y"; "vx"; "vy"; "time"; "timeStep"].

(** Modelled from the spec: validation of one agent (sections 4.3 and 9):
    every required field is there and numeric, and there is no unknown
    field. *)
Definition parse_agent (v : value) : option AgentState :=
  match v with
  | VDict d =>
      if forallb (fun k => existsb (String.eqb k) known_fields) (keys d) then
        match field d "x", field d "y", field d "vx", field d "vy",
              field d "time", field d "timeStep" with
        | Some x, Some y, Some vx, Some vy, Some t, Some dt =>
            Some (mkAgentState x y vx vy t dt)
        | _, _, _, _, _, _ => None
        end
      else None
  | _ => None
  end.

(** Modelled from the spec: validation of every agent of the mapping. *)
Fixpoint parse_agents (d : dict) : option Registry :=
  match d with
  | [] => Some []
  | (name, v) :: rest =>
      match parse_agent v, parse_agents rest with
      | Some a, Some agents => Some ((name, a) :: agents)
      | _, _ => None
      end
  end.

(** Modelled from the spec: all six numbers of a state are finite. *)
Definition finite_state (a : AgentState) : bool :=
  is_finite (x a) && is_finite (y a) && is_finite (vx a) && is_finite (vy a)
  && is_finite (time a) && is_finite (timeStep a).

(** Modelled from the spec: the states of the SimulationRun state machine
    of section 4.3; a failed run carries its cause. *)
Inductive Status : Type :=
| CREATED
| RUNNING
| COMPLETED
| FAILED (cause : exn).

(** Modelled from the spec: a SimulationRun: the agent registry, the
    RangeStore, the state of the run and the count of completed
    iterations. *)
Record SimulationRun : Type := mkSimulationRun {
  agents : Registry;
  store : RangeStore;
  status : Status;
  completed : nat
}.

(** Modelled from the spec: [create] of section 4.3.  The store is handed
    in by the caller (section 9); an empty mapping, a document that is no
    mapping and a malformed agent are validation errors. *)
Definition create (store : RangeStore) (initial_conditions : value)
    : result SimulationRun :=
  match initial_conditions with
  | VDict [] => Raise ValidationError
  | VDict d =>
      match parse_agents d with
      | Some agents => Ok (mkSimulationRun agents store CREATED 0)
      | None => Raise ValidationError
      end
  | _ => Raise ValidationError
  end.

Section Integrator.

Variable interaction : float -> float -> float -> float * float.

(** Modelled from the spec: the contribution of agent [b] to the
    acceleration of agent [a] (section 4.2, step 1), with the guard against
    zero separation distance before the singular term is computed. *)
Definition pair_effect (a b : AgentState) : result (float * float) :=
  let dx := (x b - x a)%float in
  let dy := (y b - y a)%float in
  let dist := sqrt (dx * dx + dy * dy)%float in
  if (dist =? 0)%float then Raise NumericalError
  else Ok (interaction dx dy dist).

(** Modelled from the spec: the net effect on agent [a] named [name]: the
    sum of the contributions of every other agent of the snapshot. *)
Fixpoint net_effect (name : string) (a : AgentState) (snapshot : Registry)
    : result (float * float) :=
  match snapshot with
  | [] => Ok (0%float, 0%float)
  | (name', b) :: rest =>
      if String.eqb name' name then net_effect name a rest
      else
        p <- pair_effect a b ;;
        s <- net_effect name a rest ;;
        Ok ((fst p + fst s)%float, (snd p + snd s)%float)
  end.

(** Modelled from the spec: the accelerations of all the agents [todo],
    each computed from the same pre-step [snapshot]. *)
Fixpoint accelerations (snapshot todo : Registry)
    : result (list (string * (AgentState * (float * float)))) :=
  match todo with
  | [] => Ok []
  | (name, a) :: rest =>
      acc <- net_effect name a snapshot ;;
      accs <- accelerations snapshot rest ;;
      Ok ((name, (a, acc)) :: accs)
  end.

(** Modelled from the spec: steps 2 to 4 of section 4.2 for one agent: the
    new velocity from the acceleration, the new position from the new
    velocity, the local time advanced by the agent's own step. *)
Definition advance (a : AgentState) (acc : float * float) : AgentState :=
  let dt := timeStep a in
  let vx' := (vx a + fst acc * dt)%float in
  let vy' := (vy a + snd acc * dt)%float in
  mkAgentState (x a + vx' * dt)%float (y a + vy' * dt)%float vx' vy'
               (time a + dt)%float dt.

(** Modelled from the spec: steps 2 to 5 for every agent, in order: advance
    the agent, refuse a non-finite state with a NumericalError, append the
    interval [[old_time, new_time)] to the store. *)
Fixpoint advance_all (accs : list (string * (AgentState * (float * float))))
    (store : RangeStore) : result (Registry * RangeStore) :=
  match accs with
  | [] => Ok ([], store)
  | (name, (a, acc)) :: rest =>
      let a' := advance a acc in
      if finite_state a' then
        store' <- append store name (time a) (time a') a' ;;
        r <- advance_all rest store' ;;
        Ok ((name, a') :: fst r, snd r)
      else Raise NumericalError
  end.

(** Modelled from the spec: one global iteration (section 4.2): all the
    accelerations from the pre-step snapshot first, then every agent
    advanced. *)
Definition step (agents : Registry) (store : RangeStore)
    : result (Registry * RangeStore) :=
  accs <- accelerations agents agents ;;
  advance_all accs store.

(** Modelled from the spec: the loop of [run]: at most [n] more
    iterations; the run fails at the first iteration that fails and keeps
    the registry and the store of the last successful iteration. *)
Fixpoint iterate (n : nat) (agents : Registry) (store : RangeStore) (done : nat)
    : SimulationRun :=
  match n with
  | O => mkSimulationRun agents store COMPLETED done
  | S n' =>
      match step agents store with
      | Ok (agents', store') => iterate n' agents' store' (S done)
      | Raise e => mkSimulationRun agents store (FAILED e) done
      end
  end.

(** Modelled from the spec: [run] of section 4.3.  Only a run in state
    CREATED starts; a run in a terminal state stays as it is. *)
Definition run (max_iterations : nat) (r : SimulationRun) : SimulationRun :=
  match status r with
  | CREATED => iterate max_iterations (agents r) (store r) 0
  | _ => r
  end.

(** Modelled from the spec: [simulate()] as [app.py] calls it: the run with
    the default iteration count, a failed run surfacing as the exception of
    its cause. *)
Definition simulate (default_iterations : nat) (r : SimulationRun)
    (st : RangeStore) : result (SimulationRun * RangeStore) :=
  let r' := run default_iterations
                (mkSimulationRun (agents r) st (status r) (completed r)) in
  match status r' with
  | COMPLETED => Ok (r', store r')
  | FAILED e => Raise e
  | _ => Raise ValueError
  end.

(** Modelled from the spec: the core behind the interface of [app.py]. *)
Definition core (default_iterations : nat) : Core := {|
  QRangeStore := RangeStore;
  Simulator := SimulationRun;
  QRangeStore_new := [];
  Simulator_new := fun st init => r <- create st init ;; Ok (r, store r);
  Simulator_simulate := simulate default_iterations;
  store_store := export
|}.

End Integrator.

End SpecCore.

(** ** Test doubles

    A core that does nothing but keep the initial conditions it was
    constructed with, so that a response shows what the handler handed to
    the core. *)

Module Probe.

Definition core : Core := {|
  QRangeStore := value;
  Simulator := unit;
  QRangeStore_new := VNone;
  Simulator_new := fun _ init => Ok (tt, init);
  Simulator_simulate := fun sim st => Ok (sim, st);
  store_store := fun st => st
|}.

End Probe.

(** ** Vocabulary of the statements *)

(** An agent object after lines 112-113: [time] and [timeStep] set. *)
Definition with_times (agent : dict) : dict :=
  dict_set (dict_set agent "time" (VInt 0)) "timeStep" (VFloat 0.01).

(** The loop of lines 111-113 as one pass over the keys [ks]. *)
Definition with_times_at (ks : list string) (init : dict) : dict :=
  fold_left
    (fun d key =>
       match dict_get d key with
       | Some (VDict agent) => dict_set d key (VDict (with_times agent))
       | _ => d
       end)
    ks init.

(** Every value of the mapping is an object. *)
Definition agents_are_objects (init : dict) : Prop :=
  forall key v, dict_get init key = Some v -> exists agent, v = VDict agent.

(** A [time] or [timeStep] the caller supplied reaches the core as
    supplied. *)
Definition supplied_times_pass_through : Prop :=
  forall (init init' agent agent' : dict) (key f : string) (v : value),
    App.define_times (VDict init) = Ok (VDict init') ->
    dict_get init key = Some (VDict agent) ->
    dict_get init' key = Some (VDict agent') ->
    f = "time" \/ f = "timeStep" ->
    dict_get agent f = Some v ->
    dict_get agent' f = Some v.

(** The request body of the comment in [simulate], with a caller-chosen
    [time] and [timeStep] on the first body. *)
Definition two_bodies_with_times : dict :=
  [("Body1", VDict [("x", VInt 0); ("y", VFloat 0.1); ("vx", VFloat 0.1);
                    ("vy", VInt 0); ("time", VInt 5); ("timeStep", VFloat 0.5)]);
   ("Body2", VDict [("x", VInt 0); ("y", VInt 1); ("vx", VInt 1); ("vy", VInt 0)])].

(** Every value of the mapping is an object, as a test. *)
Definition agents_are_objectsb (init : dict) : bool :=
  forallb (fun entry => match snd entry with VDict _ => true | _ => false end) init.

(** ** A concrete environment

    A metric registry that keeps every sample, clocks that tick once per
    reading, and a serializer.  The serializer writes a float as its
    mantissa and binary exponent instead of the shortest decimal that
    [repr] prints; the rest is the compact JSON text. *)

Module Demo.

Inductive sample : Type :=
| Latency (method path : string) (seconds : float)
| Count (method path status : string)
| Duration (seconds : float).

Definition print_float (f : float) : string :=
  match Prim2SF f with
  | S754_zero false => "0.0"
  | S754_zero true => "-0.0"
  | S754_infinity false => "Infinity"
  | S754_infinity true => "-Infinity"
  | S754_nan => "NaN"
  | S754_finite s m e =>
      (if s then "-" else "") ++ App.str (Z.pos m) ++ "*2**" ++ App.str e
  end.

Definition quote : string := String (Ascii.ascii_of_nat 34) "".

Definition print_string (s : string) : string := quote ++ s ++ quote.

Fixpoint print (v : value) : string :=
  match v with
  | VNone => "null"
  | VBool true => "true"
  | VBool false => "false"
  | VInt z => App.str z
  | VFloat f => print_float f
  | VStr s => print_string s
  | VList l => "[" ++ String.concat ", " (map print l) ++ "]"
  | VDict d =>
      "{" ++ String.concat ", "
               (map (fun entry => print_string (fst entry) ++ ": " ++ print (snd entry)) d)
          ++ "}"
  end.

Definition env : Env := {|
  registry := list sample;
  REQUEST_LATENCY_observe := fun r m p s => Ok (r ++ [Latency m p s])%list;
  REQUEST_COUNT_inc := fun r m p st => Ok (r ++ [Count m p st])%list;
  SIMULATION_DURATION_observe := fun r s => (r ++ [Duration s])%list;
  generate_latest := fun r => App.str (Z.of_nat (List.length r));
  CONTENT_TYPE_LATEST := "text/plain; version=0.0.4; charset=utf-8";
  perf_counter_at := fun n => SpecCore.float_of_Z (Z.of_nat n);
  datetime_now_at := fun n => SpecCore.float_of_Z (Z.of_nat n);
  dumps := print
|}.

(** The process right after start-up on a new database. *)
Definition world0 : App.world (env := env) := App.initial_world (env := env) [].

(** [POST /simulation] with the JSON document [body]. *)
Definition post (body : value) : App.request :=
  App.mkRequest "POST" "/simulation" (Ok body) None.

(** [GET /simulation]. *)
Definition get : App.request :=
  App.mkRequest "GET" "/simulation" (Raise (HTTPException 415)) None.

(** Newtonian attraction of unit strength: the contribution has length
    [1 / dist^2] and points to the other agent. *)
Definition gravity (dx dy dist : float) : float * float :=
  ((dx / (dist * dist * dist))%float, (dy / (dist * dist * dist))%float).

End Demo.

(** The initial conditions [simulate] computes from a request (lines
    110-113), or the exception that ends the handler there. *)
Definition initial_conditions (req : App.request) : result value :=
  body <- App.json req ;;
  App.define_times (or_else body (VDict [])).

(** The last row committed to a table. *)
Definition last_committed (t : Db.table) : option Db.Simulation :=
  hd_error (rev t).

(** The keys of a table grow along the order of commitment. *)
Fixpoint increasing_ids (t : Db.table) : Prop :=
  match t with
  | [] => True
  | r :: rest => (forall r', In r' rest -> (Db.id r < Db.id r')%Z) /\ increasing_ids rest
  end.

(** The document of a request that was a successful [POST /simulation]. *)
Definition posted (req : App.request) (resp : App.response) : option value :=
  if String.eqb (App.path req) "/simulation" && String.eqb (App.method req) "POST" then
    match App.payload resp with
    | App.ReturnJson doc => Some doc
    | _ => None
    end
  else None.

(** The documents of the successful [POST /simulation] requests of a
    session, oldest first. *)
Fixpoint posted_documents (reqs : list App.request) (resps : list App.response)
    : list value :=
  match reqs, resps with
  | req :: reqs', resp :: resps' =>
      match posted req resp with
      | Some doc => doc :: posted_documents reqs' resps'
      | None => posted_documents reqs' resps'
      end
  | _, _ => []
  end.

(** The run of the core that [simulate] performs for a request, as a
    function of the request alone: the initial conditions, a new store, the
    simulator built on both, the simulation, the store's contents. *)
Definition run_core {core : Core} (req : App.request) : result value :=
  init <- initial_conditions req ;;
  built <- Simulator_new QRangeStore_new init ;;
  ran <- Simulator_simulate (fst built) (snd built) ;;
  Ok (store_store (snd ran)).

(** The request as the view sees it, after the timer hook. *)
Definition timed {env : Env} (req : App.request) (w : App.world) : App.request :=
  App.mkRequest (App.method req) (App.path req) (App.json req)
                (Some (perf_counter_at (App.perf_reads w))).

(** The request is a [POST /simulation]. *)
Definition is_post_simulation (req : App.request) : bool :=
  String.eqb (App.path req) "/simulation" && String.eqb (App.method req) "POST".

(** Two bodies at rest at the same place. *)
Definition coincident_bodies : dict :=
  [("Body1", VDict [("x", VInt 1); ("y", VInt 2); ("vx", VInt 0); ("vy", VInt 0)]);
   ("Body2", VDict [("x", VInt 1); ("y", VInt 2); ("vx", VInt 0); ("vy", VInt 0)])].

(** The request body of the comment in [simulate]. *)
Definition two_bodies : dict :=
  [("Body1", VDict [("x", VInt 0); ("y", VFloat 0.1); ("vx", VFloat 0.1); ("vy", VInt 0)]);
   ("Body2", VDict [("x", VInt 0); ("y", VInt 1); ("vx", VInt 1); ("vy", VInt 0)])].

(** The records of one agent meet end to start, and each starts before it
    ends. *)
Fixpoint chained (l : list SpecCore.Interval) : Prop :=
  match l with
  | [] => True
  | r :: rest =>
      (SpecCore.start_time r <? SpecCore.end_time r)%float = true
      /\ match rest with
         | [] => True
         | r' :: _ => (SpecCore.end_time r =? SpecCore.start_time r')%float = true
         end
      /\ chained rest
  end.

(** Every sequence of the store is chained. *)
Definition store_chained (store : SpecCore.RangeStore) : Prop :=
  forall name, chained (SpecCore.records store name).

(** Every record of the store holds a finite state. *)
Definition store_finite (store : SpecCore.RangeStore) : Prop :=
  forall name iv,
    In iv (SpecCore.records store name) ->
    SpecCore.finite_state (SpecCore.state iv) = true.

(** A required field of an agent object is missing or is no number. *)
Definition missing_or_not_numeric (agent : dict) (k : string) : bool :=
  match dict_get agent k with
  | Some (VInt _) | Some (VFloat _) => false
  | _ => true
  end.

(** A malformed agent: not an object, or an object that lacks one of
    position, velocity, time and step size as a number. *)
Definition malformed (v : value) : bool :=
  match v with
  | VDict agent => existsb (missing_or_not_numeric agent) SpecCore.known_fields
  | _ => true
  end.

(** The states of a registry are all finite. *)
Definition registry_finite (agents : SpecCore.Registry) : Prop :=
  forall name a, In (name, a) agents -> SpecCore.finite_state a = true.

(** The core of the demonstrations: attraction between the agents, two
    iterations per run. *)
Definition demo_core : Core := SpecCore.core Demo.gravity 2.

(** The initial conditions [simulate] makes of [coincident_bodies], and
    the run [create] makes of them. *)
Definition coincident_init : value :=
  VDict (with_times_at (keys coincident_bodies) coincident_bodies).

Definition coincident_registry : SpecCore.Registry :=
  [("Body1", SpecCore.mkAgentState 1 2 0 0 0 0.01);
   ("Body2", SpecCore.mkAgentState 1 2 0 0 0 0.01)].

Definition coincident_run : SpecCore.SimulationRun :=
  SpecCore.mkSimulationRun coincident_registry [] SpecCore.CREATED 0.

(** The initial conditions [simulate] makes of [two_bodies], and the run
    [create] makes of them. *)
Definition two_bodies_init : value :=
  VDict (with_times_at (keys two_bodies) two_bodies).

Definition two_bodies_run : SpecCore.SimulationRun :=
  SpecCore.mkSimulationRun
    [("Body1", SpecCore.mkAgentState 0 0.1 0.1 0 0 0.01);
     ("Body2", SpecCore.mkAgentState 0 1 1 0 0 0.01)]
    [] SpecCore.CREATED 0.

(** A document whose second agent has no velocity. *)
Definition body_without_velocity : dict :=
  [("Body1", VDict [("x", VInt 0); ("y", VInt 0); ("vx", VInt 0); ("vy", VInt 0);
                    ("time", VInt 0); ("timeStep", VFloat 0.01)]);
   ("Body2", VDict [("x", VInt 1); ("y", VInt 0);
                    ("time", VInt 0); ("timeStep", VFloat 0.01)])].

(** An environment whose latency histogram refuses every observation. *)
Definition failing_env : Env := {|
  registry := list Demo.sample;
  REQUEST_LATENCY_observe := fun _ _ _ _ => Raise ValueError;
  REQUEST_COUNT_inc := fun r m p st => Ok (r ++ [Demo.Count m p st])%list;
  SIMULATION_DURATION_observe := fun r s => (r ++ [Demo.Duration s])%list;
  generate_latest := fun r => App.str (Z.of_nat (List.length r));
  CONTENT_TYPE_LATEST := "text/plain; version=0.0.4; charset=utf-8";
  perf_counter_at := fun n => SpecCore.float_of_Z (Z.of_nat n);
  datetime_now_at := fun n => SpecCore.float_of_Z (Z.of_nat n);
  dumps := Demo.print
|}.

(** ** Vocabulary of the further properties *)

(** The value is an object (a [dict]). *)
Definition is_object (v : value) : bool :=
  match v with
  | VDict _ => true
  | _ => false
  end.

(** The request [req] with another body. *)
Definition with_json (req : App.request) (j : result value) : App.request :=
  App.mkRequest (App.method req) (App.path req) j (App._start_time req).

(** The world [simulate] leaves when it ends before line 116: the timer of
    [SIMULATION_DURATION] has read the clock twice and observed the
    difference; the table, the log and the wall clock are untouched. *)
Definition timed_only {env : Env} (w : App.world) : App.world :=
  App.mkWorld (App.simulations w)
    (SIMULATION_DURATION_observe (App.prometheus w)
       (perf_counter_at (S (App.perf_reads w)) - perf_counter_at (App.perf_reads w))%float)
    (S (S (App.perf_reads w))) (App.datetime_reads w) (App.log w).

(** A body whose second agent is a number. *)
Definition body_with_number_agent : dict :=
  [("Body1", VDict [("x", VInt 0); ("y", VInt 0); ("vx", VInt 0); ("vy", VInt 0)]);
   ("Body2", VInt 7)].

(** The label of a request's path in the metrics: [request.path or "/"]. *)
Definition path_label (req : App.request) : string :=
  if String.eqb (App.path req) "" then "/" else App.path req.

(** The metric registry after the after-request hook has recorded a
    request: the latency first, then the count; the first update that raises
    ends the recording and what was recorded before it stays. *)
Definition recorded {env : Env} (r : registry) (method label status : string)
    (latency : float) : registry :=
  match REQUEST_LATENCY_observe r method label latency with
  | Raise _ => r
  | Ok r1 =>
      match REQUEST_COUNT_inc r1 method label status with
      | Ok r2 => r2
      | Raise _ => r1
      end
  end.

(** The world in which the view of a request runs: the timer hook has read
    the clock once. *)
Definition after_timer {env : Env} (w : App.world) : App.world :=
  App.mkWorld (App.simulations w) (App.prometheus w) (S (App.perf_reads w))
              (App.datetime_reads w) (App.log w).

(** The log entry of line 119 and of line 124: the label and the difference
    of the two readings of [datetime.now()] around the stage, the [k]-th and
    the next one after the state [w]. *)
Definition build_entry {env : Env} (w : App.world) : string * float :=
  ("Time to Build: ",
   (datetime_now_at (S (App.datetime_reads w)) - datetime_now_at (App.datetime_reads w))%float).

Definition simulate_entry {env : Env} (w : App.world) : string * float :=
  ("Time to Simulate: ",
   (datetime_now_at (S (S (S (App.datetime_reads w))))
    - datetime_now_at (S (S (App.datetime_reads w))))%float).

(** The keys of a table are 1, 2, ..., n in the order of commitment. *)
Definition ids_from_one (t : Db.table) : Prop :=
  map Db.id t = map Z.of_nat (seq 1 (List.length t)).

(** One agent moving so fast that its next position is beyond the greatest
    binary64 number. *)
Definition runaway_run : SpecCore.SimulationRun :=
  SpecCore.mkSimulationRun
    [("Body1", SpecCore.mkAgentState 0 0 0x1p1023 0 0 4)]
    [] SpecCore.CREATED 0.

(** The initial conditions of [runaway_run]. *)
Definition runaway_init : value :=
  VDict [("Body1", VDict [("x", VInt 0); ("y", VInt 0); ("vx", VFloat 0x1p1023);
                          ("vy", VInt 0); ("time", VInt 0); ("timeStep", VInt 4)])].

(** Every key of the table is below the greatest rowid of SQLite,
    [2^63 - 1]: the range in which [Db.next_id] is SQLite's rule. *)
Definition keys_below_max (t : Db.table) : Prop :=
  forall r, In r t -> (Db.id r < 9223372036854775807)%Z.

(** A process whose table already holds two rows, with keys out of order. *)
Definition world_with_rows : App.world (env := Demo.env) :=
  App.mkWorld (env := Demo.env)
    [Db.mkSimulation 7 "seven"; Db.mkSimulation 3 "three"] [] 0 0 [].

(** ** The objects of the core in the memory of the process

    The modules [simulator] and [store] are not among the sources.  Here
    the stores and simulators of section 4 of the design document are
    objects in the memory that all the requests of the process share: a
    constructor allocates, the simulator holds the address of the store it
    was given and writes to the store there, and [app.py] reads
    [store.store] through the address it kept. *)

Module Objects.

(** Modelled from the spec: an object of the core: a RangeStore, or a
    SimulationRun (registry, state and count of iterations) with the address
    of its store. *)
Inductive object : Type :=
| StoreObject (store : SpecCore.RangeStore)
| SimulatorObject (agents : SpecCore.Registry) (status : SpecCore.Status)
                  (completed : nat) (store_at : nat).

(** Modelled from the spec: the memory of the process: the objects by
    address, in the order of allocation. *)
Definition heap : Type := list object.

(** Modelled from the spec: the store at an address, if a store is there. *)
Definition read_store (h : heap) (a : nat) : option SpecCore.RangeStore :=
  match nth_error h a with
  | Some (StoreObject st) => Some st
  | _ => None
  end.

(** Modelled from the spec: the object at an address replaced. *)
Fixpoint write (h : heap) (a : nat) (o : object) : heap :=
  match h, a with
  | [], _ => []
  | _ :: rest, O => o :: rest
  | o' :: rest, S a' => o' :: write rest a' o
  end.

(** Modelled from the spec: [QRangeStore()] as section 4.3 has it ("a fresh
    RangeStore"): a new, empty store at a new address. *)
Definition new_store (h : heap) : nat * heap :=
  (List.length h, (h ++ [StoreObject []])%list).

(** The constructor the design document rules out (section 9, "never as
    shared process-wide singletons"): one store for the whole process, made
    at the first call and handed out again at every later one. *)
Definition shared_store (h : heap) : nat * heap :=
  match read_store h 0 with
  | Some _ => (0, h)
  | None => new_store h
  end.

(** Modelled from the spec: [Simulator(store=store, init=init)]: [create]
    of section 4.3 on the store at the address given; the new simulator
    keeps the address. *)
Definition new_simulator (a : nat) (init : value) (h : heap) : result nat * heap :=
  match read_store h a with
  | Some st =>
      match SpecCore.create st init with
      | Ok r =>
          (Ok (List.length h),
           (h ++ [SimulatorObject (SpecCore.agents r) (SpecCore.status r)
                                  (SpecCore.completed r) a])%list)
      | Raise e => (Raise e, h)
      end
  | None => (Raise AttributeError, h)
  end.

Section Process.

Variable interaction : float -> float -> float -> float * float.
Variable default_iterations : nat.

(** Modelled from the spec: [simulator.simulate()]: [run] of section 4.3 on
    the store that the simulator's address leads to; the store and the
    simulator are updated where they are, also when the run fails. *)
Definition simulate (s : nat) (h : heap) : result unit * heap :=
  match nth_error h s with
  | Some (SimulatorObject agents status completed a) =>
      match read_store h a with
      | Some st =>
          let r := SpecCore.run interaction default_iterations
                     (SpecCore.mkSimulationRun agents st status completed) in
          let h' := write (write h a (StoreObject (SpecCore.store r))) s
                      (SimulatorObject (SpecCore.agents r) (SpecCore.status r)
                                       (SpecCore.completed r) a) in
          (match SpecCore.status r with
           | SpecCore.COMPLETED => Ok tt
           | SpecCore.FAILED e => Raise e
           | _ => Raise ValueError
           end, h')
      | None => (Raise AttributeError, h)
      end
  | _ => (Raise AttributeError, h)
  end.

(** Modelled from the spec: the core as [app.py] meets it in a process
    whose memory is [h], for a constructor of stores [alloc].  What the
    interface calls the state of the store is the address of the store
    together with the memory it lives in. *)
Definition core_with (alloc : heap -> nat * heap) (h : heap) : Core := {|
  QRangeStore := nat * heap;
  Simulator := nat;
  QRangeStore_new := alloc h;
  Simulator_new := fun st init =>
    match new_simulator (fst st) init (snd st) with
    | (Ok s, h') => Ok (s, (fst st, h'))
    | (Raise e, _) => Raise e
    end;
  Simulator_simulate := fun s st =>
    match simulate s (snd st) with
    | (Ok _, h') => Ok (s, (fst st, h'))
    | (Raise e, _) => Raise e
    end;
  store_store := fun st =>
    match read_store (snd st) (fst st) with
    | Some store => SpecCore.export store
    | None => VNone
    end
|}.

(** Modelled from the spec: the core of the design document in a process
    whose memory is [h]. *)
Definition core_in (h : heap) : Core := core_with new_store h.

(** Modelled from the spec: the memory that a [POST /simulation] leaves:
    nothing is allocated when the view ends before line 117, and what was
    allocated or written stays when the constructor or the run raises. *)
Definition memory_after (alloc : heap -> nat * heap) (h : heap) (req : App.request)
    : heap :=
  match initial_conditions req with
  | Raise _ => h
  | Ok init =>
      match new_simulator (fst (alloc h)) init (snd (alloc h)) with
      | (Raise _, h2) => h2
      | (Ok s, h2) => snd (simulate s h2)
      end
  end.

End Process.

End Objects.

(** * Properties *)

(** ** Dictionaries *)

Section DictFacts.

Context {V : Type}.
Implicit Types (d : list (string * V)) (k : string) (v : V).

Lemma dict_get_set_eq d k v : dict_get (dict_set d k v) k = Some v.
Proof.
  induction d as [|[k' v'] rest IH]; simpl.
  - now rewrite String.eqb_refl.
  - destruct (String.eqb k k') eqn:E; simpl; rewrite E; auto.
Qed.

Lemma dict_get_set_neq d k k' v :
  k <> k' -> dict_get (dict_set d k v) k' = dict_get d k'.
Proof.
  intros Hne. induction d as [|[k0 v0] rest IH]; simpl.
  - destruct (String.eqb k' k) eqn:E; auto.
    apply String.eqb_eq in E. congruence.
  - destruct (String.eqb k k0) eqn:E; simpl.
    + apply String.eqb_eq in E. subst k0.
      destruct (String.eqb k' k) eqn:E'; auto.
      apply String.eqb_eq in E'. congruence.
    + now rewrite IH.
Qed.

Lemma dict_set_set d k v1 v2 : dict_set (dict_set d k v1) k v2 = dict_set d k v2.
Proof.
  induction d as [|[k' v'] rest IH]; simpl.
  - now rewrite String.eqb_refl.
  - destruct (String.eqb k k') eqn:E; simpl; rewrite E; congruence.
Qed.

Lemma dict_set_same d k v : dict_get d k = Some v -> dict_set d k v = d.
Proof.
  induction d as [|[k' v'] rest IH]; simpl; [discriminate|].
  destruct (String.eqb k k') eqn:E; intros H.
  - congruence.
  - now rewrite IH.
Qed.

Lemma keys_dict_set d k v v0 :
  dict_get d k = Some v0 -> keys (dict_set d k v) = keys d.
Proof.
  unfold keys. induction d as [|[k' v'] rest IH]; simpl; [discriminate|].
  destruct (String.eqb k k') eqn:E; intros H; simpl; auto.
  now rewrite IH.
Qed.

Lemma dict_get_In d k v : dict_get d k = Some v -> In (k, v) d.
Proof.
  induction d as [|[k' v'] rest IH]; simpl; [discriminate|].
  destruct (String.eqb k k') eqn:E; intros H.
  - apply String.eqb_eq in E. left. congruence.
  - right. auto.
Qed.

Lemma In_keys_dict_get d k : In k (keys d) -> exists v, dict_get d k = Some v.
Proof.
  unfold keys. induction d as [|[k' v'] rest IH]; simpl; [tauto|].
  intros [->|H]; [rewrite String.eqb_refl; eauto|].
  destruct (String.eqb k k'); eauto.
Qed.

End DictFacts.

(** ** Lines 110-113: the initial conditions handed to the core *)

Lemma with_times_time agent : dict_get (with_times agent) "time" = Some (VInt 0).
Proof.
  unfold with_times.
  rewrite dict_get_set_neq by discriminate.
  apply dict_get_set_eq.
Qed.

Lemma with_times_timeStep agent :
  dict_get (with_times agent) "timeStep" = Some (VFloat 0.01).
Proof. unfold with_times. apply dict_get_set_eq. Qed.

Lemma with_times_other agent f :
  f <> "time" -> f <> "timeStep" -> dict_get (with_times agent) f = dict_get agent f.
Proof.
  intros H1 H2. unfold with_times.
  rewrite !dict_get_set_neq; auto.
Qed.

Lemma with_times_idem agent : with_times (with_times agent) = with_times agent.
Proof.
  unfold with_times at 1.
  rewrite (dict_set_same (with_times agent) "time" (with_times_time agent)).
  apply dict_set_same, with_times_timeStep.
Qed.

(** One turn of the loop body on an agent that is an object. *)
Lemma loop_body_object (d agent : dict) (key : string) :
  dict_get d key = Some (VDict agent) ->
  (init <- App.setitem_in (VDict d) key "time" (VInt 0) ;;
   App.setitem_in init key "timeStep" (VFloat 0.01))
  = Ok (VDict (dict_set d key (VDict (with_times agent)))).
Proof.
  intros H. unfold App.setitem_in. simpl. rewrite H. simpl.
  rewrite dict_get_set_eq. simpl.
  now rewrite dict_set_set.
Qed.

Lemma with_times_at_objects ks : forall d,
  agents_are_objects d -> agents_are_objects (with_times_at ks d).
Proof.
  induction ks as [|key ks IH]; intros d Hd; simpl; auto.
  apply IH.
  destruct (dict_get d key) as [[| | | | | |agent]|] eqn:E; auto.
  intros k v. destruct (String.eqb_spec key k) as [->|Hne].
  - rewrite dict_get_set_eq. intros [= <-]. eauto.
  - rewrite dict_get_set_neq by assumption. apply Hd.
Qed.

Lemma for_each_define_times ks : forall d,
  agents_are_objects d ->
  (forall key, In key ks -> exists v, dict_get d key = Some v) ->
  App.for_each ks
    (fun key init =>
       init <- App.setitem_in init key "time" (VInt 0) ;;
       App.setitem_in init key "timeStep" (VFloat 0.01))
    (VDict d)
  = Ok (VDict (with_times_at ks d)).
Proof.
  induction ks as [|key ks IH]; intros d Hobj Hks; simpl; auto.
  destruct (Hks key (or_introl eq_refl)) as [v Hv].
  destruct (Hobj _ _ Hv) as [agent ->].
  rewrite (loop_body_object _ _ Hv). simpl. rewrite Hv.
  apply IH.
  - generalize (with_times_at_objects [key] Hobj). simpl. now rewrite Hv.
  - intros k Hk. destruct (String.eqb_spec key k) as [->|Hne].
    + rewrite dict_get_set_eq. eauto.
    + rewrite dict_get_set_neq by assumption. apply Hks. now right.
Qed.

Lemma with_times_at_get ks : forall d key agent,
  dict_get d key = Some (VDict agent) ->
  dict_get (with_times_at ks d) key
  = Some (VDict (if in_dec string_dec key ks then with_times agent else agent)).
Proof.
  induction ks as [|k ks IH]; intros d key agent H; simpl.
  - assumption.
  - destruct (string_dec k key) as [->|Hne].
    + rewrite H.
      rewrite (IH (dict_set d key (VDict (with_times agent))) key (with_times agent)
                  (dict_get_set_eq _ _ _)).
      rewrite with_times_idem. now destruct (in_dec string_dec key ks).
    + rewrite (IH _ key agent).
      * destruct (in_dec string_dec key ks); reflexivity.
      * destruct (dict_get d k) as [[| | | | | |a]|]; auto.
        now rewrite dict_get_set_neq.
Qed.

Lemma with_times_at_keys ks : forall (d : dict),
  keys (with_times_at ks d) = keys d.
Proof.
  induction ks as [|k ks IH]; intros d; simpl; auto.
  rewrite IH.
  destruct (dict_get d k) as [[| | | | | |a]|] eqn:E; auto.
  eapply keys_dict_set; eauto.
Qed.

Lemma agents_are_objectsb_sound init :
  agents_are_objectsb init = true -> agents_are_objects init.
Proof.
  unfold agents_are_objectsb, agents_are_objects.
  intros H key v Hget. apply dict_get_In in Hget.
  rewrite forallb_forall in H. specialize (H _ Hget). simpl in H.
  destruct v; try discriminate. eauto.
Qed.

Lemma or_else_dict (d : dict) : or_else (VDict d) (VDict []) = VDict d.
Proof. now destruct d. Qed.

Lemma define_times_objects init :
  agents_are_objects init ->
  App.define_times (VDict init) = Ok (VDict (with_times_at (keys init) init)).
Proof.
  intros H. unfold App.define_times. simpl.
  apply for_each_define_times; auto.
  intros key. apply In_keys_dict_get.
Qed.

(** C1 (as the code has it): for every agent object of the document that
    [POST /simulation] accepts, the handler sets [time] to 0 and [timeStep]
    to 0.01 whether or not the caller supplied them, and every other field
    reaches the core as the caller gave it.  The probe core shows the
    initial conditions that [simulate] hands to [Simulator(store, init)]. *)
Theorem C1_times_are_always_set :
  forall (env : Env) (w : App.world) (req : App.request) (init : dict),
    App.json req = Ok (VDict init) ->
    agents_are_objectsb init = true ->
    exists init' : dict,
      App.define_times (or_else (VDict init) (VDict [])) = Ok (VDict init')
      /\ fst (App.simulate (core := Probe.core) req w) = Ok (App.ReturnJson (VDict init'))
      /\ keys init' = keys init
      /\ forall key agent,
           dict_get init key = Some (VDict agent) ->
           exists agent',
             dict_get init' key = Some (VDict agent')
             /\ dict_get agent' "time" = Some (VInt 0)
             /\ dict_get agent' "timeStep" = Some (VFloat 0.01)
             /\ forall f, f <> "time" -> f <> "timeStep" ->
                          dict_get agent' f = dict_get agent f.
Proof.
  intros env w req init Hjson Hobj.
  apply agents_are_objectsb_sound in Hobj.
  exists (with_times_at (keys init) init).
  rewrite or_else_dict.
  pose proof (define_times_objects Hobj) as Hdef.
  split; [exact Hdef|]. split; [|split].
  - unfold App.simulate, App.with_SIMULATION_DURATION_time, App.bindM, App.lift.
    simpl. rewrite Hjson, or_else_dict, Hdef. reflexivity.
  - apply with_times_at_keys.
  - intros key agent Hget.
    exists (with_times agent). split; [|split; [|split]].
    + rewrite (with_times_at_get _ _ _ Hget).
      destruct (in_dec string_dec key (keys init)) as [_|Hnot]; auto.
      exfalso. apply Hnot. apply dict_get_In in Hget.
      unfold keys. now apply (in_map fst) in Hget.
    + apply with_times_time.
    + apply with_times_timeStep.
    + apply with_times_other.
Qed.

Lemma C1_times_are_always_set_witness :
  exists init' : dict,
    App.define_times (or_else (VDict two_bodies_with_times) (VDict [])) = Ok (VDict init')
    /\ fst (App.simulate (core := Probe.core)
              (Demo.post (VDict two_bodies_with_times)) Demo.world0)
       = Ok (App.ReturnJson (VDict init'))
    /\ keys init' = keys two_bodies_with_times
    /\ forall key agent,
         dict_get two_bodies_with_times key = Some (VDict agent) ->
         exists agent',
           dict_get init' key = Some (VDict agent')
           /\ dict_get agent' "time" = Some (VInt 0)
           /\ dict_get agent' "timeStep" = Some (VFloat 0.01)
           /\ forall f, f <> "time" -> f <> "timeStep" ->
                        dict_get agent' f = dict_get agent f.
Proof.
  apply (@C1_times_are_always_set Demo.env Demo.world0
           (Demo.post (VDict two_bodies_with_times)) two_bodies_with_times);
    reflexivity.
Defined.

(** C1 (as stated) fails: the first body of [two_bodies_with_times]
    supplies [time = 5], and the initial conditions handed to the core have
    [time = 0] for it. *)
Lemma C1_supplied_times_are_overwritten : ~ supplied_times_pass_through.
Proof.
  intros H.
  specialize (H two_bodies_with_times
                (with_times_at (keys two_bodies_with_times) two_bodies_with_times)
                [("x", VInt 0); ("y", VFloat 0.1); ("vx", VFloat 0.1);
                 ("vy", VInt 0); ("time", VInt 5); ("timeStep", VFloat 0.5)]
                [("x", VInt 0); ("y", VFloat 0.1); ("vx", VFloat 0.1);
                 ("vy", VInt 0); ("time", VInt 0); ("timeStep", VFloat 0.01)]
                "Body1" "time" (VInt 5)
                eq_refl eq_refl eq_refl (or_introl eq_refl) eq_refl).
  discriminate H.
Qed.

(** ** The after-request hook *)

(** The cases of [_record_metrics]: no start time, the latency observation
    raises, the count raises, both succeed. *)
Ltac record_metrics_cases req :=
  unfold App._record_metrics, App.bindM, App.try_except, App.ret;
  destruct (App._start_time req) as [start|]; simpl; [|reflexivity];
  unfold App.update_registry; simpl;
  destruct (REQUEST_LATENCY_observe _ _ _ _) as [r|e]; simpl; [|reflexivity];
  destruct (REQUEST_COUNT_inc _ _ _ _) as [r'|e]; reflexivity.

Lemma record_metrics_returns (env : Env) req resp w :
  fst (App._record_metrics req resp w) = Ok resp.
Proof. record_metrics_cases req. Qed.

Lemma record_metrics_table (env : Env) req resp w :
  App.simulations (snd (App._record_metrics req resp w)) = App.simulations w.
Proof. record_metrics_cases req. Qed.

(** ** The view [POST /simulation] *)

(** What [simulate] returns and what it leaves in the table, by the stage
    at which the handler ends. *)
Lemma simulate_cases (env : Env) (core : Core) (req : App.request) (w : App.world) :
  match initial_conditions req with
  | Raise e =>
      fst (App.simulate req w) = Raise e
      /\ App.simulations (snd (App.simulate req w)) = App.simulations w
  | Ok init =>
      match Simulator_new QRangeStore_new init with
      | Raise e =>
          fst (App.simulate req w) = Raise e
          /\ App.simulations (snd (App.simulate req w)) = App.simulations w
      | Ok (simulator, store) =>
          match Simulator_simulate simulator store with
          | Raise e =>
              fst (App.simulate req w) = Raise e
              /\ App.simulations (snd (App.simulate req w)) = App.simulations w
          | Ok (_, store') =>
              fst (App.simulate req w) = Ok (App.ReturnJson (store_store store'))
              /\ App.simulations (snd (App.simulate req w))
                 = Db.add_commit (App.simulations w) (dumps (store_store store'))
          end
      end
  end.
Proof.
  unfold initial_conditions, App.simulate, App.with_SIMULATION_DURATION_time,
    App.bindM, App.lift.
  simpl.
  destruct (App.json req) as [body|e]; simpl; [|split; reflexivity].
  destruct (App.define_times _) as [init|e]; simpl; [|split; reflexivity].
  destruct (Simulator_new _ _) as [[simulator store]|e]; simpl; [|split; reflexivity].
  destruct (Simulator_simulate _ _) as [[simulator' store']|e]; simpl; split; reflexivity.
Qed.

Lemma simulate_run_core (env : Env) (core : Core) (req : App.request) (w : App.world) :
  fst (App.simulate req w)
  = match run_core req with
    | Ok doc => Ok (App.ReturnJson doc)
    | Raise e => Raise e
    end
  /\ App.simulations (snd (App.simulate req w))
     = match run_core req with
       | Ok doc => Db.add_commit (App.simulations w) (dumps doc)
       | Raise _ => App.simulations w
       end.
Proof.
  pose proof (simulate_cases core req w) as H.
  unfold run_core.
  destruct (initial_conditions req) as [init|e]; simpl; [|exact H].
  destruct (Simulator_new _ _) as [[simulator store]|e]; simpl; [|exact H].
  destruct (Simulator_simulate _ _) as [[simulator' store']|e]; simpl; exact H.
Qed.

Lemma run_core_timed (env : Env) (core : Core) req w :
  run_core (timed req w) = run_core req.
Proof. reflexivity. Qed.

(** ** The request cycle *)

(** The world in which the view runs: the timer hook has read the clock. *)
Lemma wsgi_app_view (env : Env) (core : Core) req w :
  let w1 := App.mkWorld (App.simulations w) (App.prometheus w) (S (App.perf_reads w))
                        (App.datetime_reads w) (App.log w) in
  let out := App.dispatch_request (timed req w) w1 in
  let resp := match fst out with
              | Ok rv => App.make_response rv
              | Raise e => App.handle_exception e
              end in
  fst (App.wsgi_app req w) = resp
  /\ App.simulations (snd (App.wsgi_app req w)) = App.simulations (snd out).
Proof.
  intros w1 out resp. subst resp.
  destruct out as [r w2] eqn:E. subst out w1. unfold timed in E.
  cbv [App.wsgi_app App.full_dispatch_request App._start_timer App.bindM
       App.try_except App.ret App.perf_counter].
  rewrite E. cbv [fst snd].
  destruct r as [rv|e].
  - pose proof (record_metrics_returns
                  (App.mkRequest (App.method req) (App.path req) (App.json req)
                                 (Some (perf_counter_at (App.perf_reads w))))
                  (App.make_response rv) w2) as Hf.
    pose proof (record_metrics_table
                  (App.mkRequest (App.method req) (App.path req) (App.json req)
                                 (Some (perf_counter_at (App.perf_reads w))))
                  (App.make_response rv) w2) as Ht.
    destruct (App._record_metrics _ _ w2) as [r w3]; simpl in *. subst r. auto.
  - pose proof (record_metrics_returns
                  (App.mkRequest (App.method req) (App.path req) (App.json req)
                                 (Some (perf_counter_at (App.perf_reads w))))
                  (App.handle_exception e) w2) as Hf.
    pose proof (record_metrics_table
                  (App.mkRequest (App.method req) (App.path req) (App.json req)
                                 (Some (perf_counter_at (App.perf_reads w))))
                  (App.handle_exception e) w2) as Ht.
    destruct (App._record_metrics _ _ w2) as [r w3]; simpl in *. subst r. auto.
Qed.

(** C10: the after-request hook returns the response it was given, for every
    request, every response and every state of the process, whatever the
    metric registry does: an exception raised while the latency or the
    count is recorded is caught by the [except Exception] clause.  So the
    response of a request is the one made of the view's return value or of
    its exception, as it was before the hook. *)
Theorem C10_record_metrics_returns_response :
  forall (env : Env) (core : Core) (req : App.request) (resp : App.response)
         (w : App.world),
    fst (App._record_metrics req resp w) = Ok resp
    /\ fst (App.wsgi_app req w)
       = match fst (App.dispatch_request (timed req w)
                      (App.mkWorld (App.simulations w) (App.prometheus w)
                         (S (App.perf_reads w)) (App.datetime_reads w) (App.log w))) with
         | Ok rv => App.make_response rv
         | Raise e => App.handle_exception e
         end.
Proof.
  intros env core req resp w. split.
  - unfold App._record_metrics, App.bindM, App.try_except, App.ret.
    destruct (App._start_time req) as [start|]; simpl; [|reflexivity].
    unfold App.update_registry; simpl.
    destruct (REQUEST_LATENCY_observe _ _ _ _) as [r|e]; simpl; [|reflexivity].
    destruct (REQUEST_COUNT_inc _ _ _ _) as [r'|e]; reflexivity.
  - apply (wsgi_app_view core req w).
Qed.

Lemma payload_handle_exception e :
  App.payload (App.handle_exception e) = App.ReturnStr "".
Proof. now destruct e. Qed.

(** What a request does to the table and what its response is, by route. *)
Lemma dispatch_request_effect (env : Env) (core : Core) req w :
  let out := App.dispatch_request req w in
  let resp := match fst out with
              | Ok rv => App.make_response rv
              | Raise e => App.handle_exception e
              end in
  if is_post_simulation req then
    match run_core req with
    | Ok doc =>
        resp = App.mkResponse 200 (App.ReturnJson doc)
        /\ App.simulations (snd out) = Db.add_commit (App.simulations w) (dumps doc)
    | Raise e =>
        resp = App.handle_exception e
        /\ App.simulations (snd out) = App.simulations w
    end
  else
    App.simulations (snd out) = App.simulations w
    /\ (App.path req = "/simulation" -> App.method req = "GET" ->
        resp = App.mkResponse 200
                 (match Db.first (Db.order_by_id_desc (App.simulations w)) with
                  | Some simulation => App.ReturnStr (Db.data simulation)
                  | None => App.ReturnJson (VList [])
                  end)).
Proof.
  cbv zeta. unfold is_post_simulation, App.dispatch_request.
  destruct (String.eqb_spec (App.path req) "/") as [Hp|Hp].
  { rewrite Hp. simpl.
    destruct (_ || _); [|destruct (String.eqb (App.method req) "OPTIONS")];
      simpl; split; auto; discriminate. }
  destruct (String.eqb_spec (App.path req) "/metrics") as [Hm|Hm].
  { rewrite Hm. simpl.
    destruct (_ || _); [|destruct (String.eqb (App.method req) "OPTIONS")];
      simpl; split; auto; discriminate. }
  destruct (String.eqb_spec (App.path req) "/simulation") as [Hs|Hs];
    [|simpl; split; [reflexivity|congruence]].
  simpl.
  destruct (String.eqb_spec (App.method req) "GET") as [Hg|Hg].
  { rewrite Hg. simpl. split; auto.
    intros _ _. unfold App.get_data, App.bindM, App.query_latest, App.ret. simpl.
    now destruct (Db.first _). }
  destruct (String.eqb_spec (App.method req) "HEAD") as [Hh|Hh].
  { rewrite Hh. simpl. split; [reflexivity|congruence]. }
  simpl.
  destruct (String.eqb_spec (App.method req) "POST") as [Ho|Ho].
  { destruct (simulate_run_core core req w) as [Hf Ht].
    rewrite Hf, Ht.
    destruct (run_core req) as [doc|e]; simpl; auto. }
  destruct (String.eqb (App.method req) "OPTIONS");
    simpl; split; solve [reflexivity|congruence].
Qed.

(** The table after a request, read off the request and its response. *)
Lemma wsgi_app_table (env : Env) (core : Core) req w :
  App.simulations (snd (App.wsgi_app req w))
  = match posted req (fst (App.wsgi_app req w)) with
    | Some doc => Db.add_commit (App.simulations w) (dumps doc)
    | None => App.simulations w
    end.
Proof.
  destruct (wsgi_app_view core req w) as [Hresp Htab].
  rewrite Hresp, Htab. clear Hresp Htab.
  pose proof (dispatch_request_effect core (timed req w)
                (App.mkWorld (App.simulations w) (App.prometheus w)
                   (S (App.perf_reads w)) (App.datetime_reads w) (App.log w))) as H.
  cbv zeta in H. unfold posted.
  change (String.eqb (App.path req) "/simulation" && String.eqb (App.method req) "POST")
    with (is_post_simulation (timed req w)).
  destruct (is_post_simulation (timed req w)).
  - rewrite run_core_timed in H.
    destruct (run_core req) as [doc|e]; destruct H as [-> ->]; simpl; auto.
    now rewrite payload_handle_exception.
  - apply H.
Qed.

(** ** The [Simulation] table *)

Lemma fold_max_ge (t : Db.table) (z : Z) :
  (z <= fold_right (fun r' acc => Z.max (Db.id r') acc) z t)%Z
  /\ forall r, In r t -> (Db.id r <= fold_right (fun r' acc => Z.max (Db.id r') acc) z t)%Z.
Proof.
  induction t as [|r0 t [IHz IHt]]; simpl.
  - split; [lia|tauto].
  - split; [lia|]. intros r [->|H]; [lia|]. specialize (IHt _ H). lia.
Qed.

Lemma next_id_greater (t : Db.table) (r : Db.Simulation) :
  In r t -> (Db.id r < Db.next_id t)%Z.
Proof.
  destruct t as [|r0 t]; simpl; [tauto|].
  destruct (fold_max_ge t (Db.id r0)) as [Hz Ht].
  intros [->|H]; [lia|]. specialize (Ht _ H). lia.
Qed.

Lemma increasing_ids_app (t : Db.table) (r : Db.Simulation) :
  increasing_ids t -> (forall r', In r' t -> (Db.id r' < Db.id r)%Z) ->
  increasing_ids (t ++ [r])%list.
Proof.
  induction t as [|r0 t IH]; simpl.
  - intros _ _. split; [tauto|exact I].
  - intros [H0 Ht] Hr. split.
    + intros r' Hin. apply in_app_or in Hin.
      destruct Hin as [Hin|[<-|[]]]; auto.
    + apply IH; auto.
Qed.

Lemma add_commit_increasing (t : Db.table) (d : string) :
  increasing_ids t -> increasing_ids (Db.add_commit t d).
Proof.
  intros H. apply increasing_ids_app; auto.
  intros r' Hin. simpl. now apply next_id_greater.
Qed.

Lemma insert_desc_least (r : Db.Simulation) (l : list Db.Simulation) :
  (forall r', In r' l -> (Db.id r < Db.id r')%Z) ->
  Db.insert_desc r l = (l ++ [r])%list.
Proof.
  induction l as [|r0 l IH]; simpl; auto.
  intros H.
  destruct (Z.leb_spec (Db.id r0) (Db.id r)) as [Hle|Hlt].
  - specialize (H r0 (or_introl eq_refl)). lia.
  - rewrite IH; auto.
Qed.

(** On a table whose keys grow, [ORDER BY id DESC] is the reverse of the
    order of commitment. *)
Lemma order_by_id_desc_rev (t : Db.table) :
  increasing_ids t -> Db.order_by_id_desc t = rev t.
Proof.
  induction t as [|r t IH]; simpl; auto.
  intros [Hr Ht]. unfold Db.order_by_id_desc in *. simpl.
  rewrite IH by assumption.
  apply insert_desc_least.
  intros r' Hin. apply Hr. now apply in_rev.
Qed.

Lemma last_committed_greatest (t : Db.table) :
  increasing_ids t ->
  forall row, In row t ->
  exists latest, last_committed t = Some latest /\ (Db.id row <= Db.id latest)%Z.
Proof.
  unfold last_committed.
  induction t as [|r t IH]; simpl; [tauto|].
  intros [Hr Ht] row Hin.
  destruct t as [|r1 t'].
  - destruct Hin as [->|[]]. simpl. eexists; split; eauto. lia.
  - destruct (IH Ht r1 (or_introl eq_refl)) as [latest [Hl Hle]].
    assert (Hin' : In latest (r1 :: t')).
    { apply in_rev. destruct (rev (r1 :: t')) as [|x l]; [discriminate|].
      injection Hl as ->. now left. }
    assert (Hhd : hd_error (rev (r1 :: t') ++ [r])%list = Some latest).
    { destruct (rev (r1 :: t')) as [|x l]; [discriminate|]. exact Hl. }
    exists latest. split; [exact Hhd|].
    destruct Hin as [<-|Hin].
    + specialize (Hr _ Hin'). lia.
    + destruct (IH Ht row Hin) as [latest' [Hl' Hle']].
      rewrite Hl in Hl'. injection Hl' as <-. exact Hle'.
Qed.

(** The table of a session: one row per successful [POST /simulation],
    holding the serialization of its document, in order; the keys grow. *)
Lemma serve_table (env : Env) (core : Core) (reqs : list App.request) :
  forall w,
    increasing_ids (App.simulations w) ->
    increasing_ids (App.simulations (snd (App.serve reqs w)))
    /\ map Db.data (App.simulations (snd (App.serve reqs w)))
       = (map Db.data (App.simulations w)
          ++ map dumps (posted_documents reqs (fst (App.serve reqs w))))%list.
Proof.
  induction reqs as [|req reqs IH]; intros w Hinc; simpl.
  - split; auto. now rewrite app_nil_r.
  - pose proof (wsgi_app_table core req w) as Htab.
    destruct (App.wsgi_app req w) as [resp w1]. simpl in Htab.
    assert (Hinc1 : increasing_ids (App.simulations w1)).
    { rewrite Htab. destruct (posted req resp); auto using add_commit_increasing. }
    destruct (IH w1 Hinc1) as [IHi IHd].
    destruct (App.serve reqs w1) as [resps w2]. simpl in *.
    split; auto.
    rewrite IHd, Htab.
    destruct (posted req resp) as [doc|]; auto.
    unfold Db.add_commit. rewrite map_app. simpl. now rewrite <- app_assoc.
Qed.

(** ** [GET /simulation] *)

(** C4: after every sequence of requests served from a new database, the
    table holds one row per successful [POST /simulation], in the order of
    commitment; the last of them has the greatest id, and [GET /simulation]
    returns its data, as a view and as a response. *)
Theorem C4_get_returns_last_committed :
  forall (env : Env) (core : Core) (r : registry) (reqs : list App.request)
         (j : result value) (st : option float),
    let session := App.serve reqs (App.initial_world r) in
    let t := App.simulations (snd session) in
    let latest_data :=
      match last_committed t with
      | Some latest => App.ReturnStr (Db.data latest)
      | None => App.ReturnJson (VList [])
      end in
    map Db.data t = map dumps (posted_documents reqs (fst session))
    /\ (forall row, In row t ->
          exists latest, last_committed t = Some latest /\ (Db.id row <= Db.id latest)%Z)
    /\ fst (App.get_data (snd session)) = Ok latest_data
    /\ fst (App.wsgi_app (App.mkRequest "GET" "/simulation" j st) (snd session))
       = App.mkResponse 200 latest_data.
Proof.
  intros env core r reqs j st session t latest_data.
  destruct (serve_table core reqs (App.initial_world r) I) as [Hinc Hdata].
  fold session in Hinc, Hdata. fold t in Hinc, Hdata. simpl in Hdata.
  assert (Hfirst : Db.first (Db.order_by_id_desc t) = last_committed t)
    by (now rewrite order_by_id_desc_rev).
  split; [exact Hdata|]. split; [|split].
  - now apply last_committed_greatest.
  - unfold App.get_data, App.bindM, App.query_latest, App.ret. simpl.
    fold t. rewrite Hfirst. reflexivity.
  - destruct (wsgi_app_view core (App.mkRequest "GET" "/simulation" j st) (snd session))
      as [Hresp _].
    rewrite Hresp.
    match goal with
    | |- context [App.dispatch_request ?q ?w1] =>
        pose proof (dispatch_request_effect core q w1) as H
    end.
    cbv zeta in H. change (is_post_simulation _) with false in H.
    cbv iota in H. destruct H as [_ H].
    specialize (H eq_refl eq_refl). cbv zeta.
    etransitivity; [exact H|]. simpl. fold t. now rewrite Hfirst.
Qed.

(** C9: when the table is empty, the view [get_data] returns the empty
    list and changes nothing, and the response to [GET /simulation] is a 200
    carrying the empty list, not an error. *)
Theorem C9_get_on_empty_table :
  forall (env : Env) (core : Core) (r : registry) (p d : nat)
         (l : list (string * float)) (j : result value) (st : option float),
    let w := App.mkWorld [] r p d l in
    App.get_data w = (Ok (App.ReturnJson (VList [])), w)
    /\ fst (App.wsgi_app (App.mkRequest "GET" "/simulation" j st) w)
       = App.mkResponse 200 (App.ReturnJson (VList [])).
Proof.
  intros env core r p d l j st w. split; [reflexivity|].
  destruct (wsgi_app_view core (App.mkRequest "GET" "/simulation" j st) w) as [Hresp _].
  rewrite Hresp. reflexivity.
Qed.

(** ** [POST /simulation]: what is persisted and what is returned *)

Lemma wsgi_app_post (env : Env) (core : Core) req w :
  is_post_simulation req = true ->
  match run_core req with
  | Ok doc =>
      fst (App.wsgi_app req w) = App.mkResponse 200 (App.ReturnJson doc)
      /\ App.simulations (snd (App.wsgi_app req w))
         = Db.add_commit (App.simulations w) (dumps doc)
  | Raise e =>
      fst (App.wsgi_app req w) = App.handle_exception e
      /\ App.simulations (snd (App.wsgi_app req w)) = App.simulations w
  end.
Proof.
  intros Hpost.
  destruct (wsgi_app_view core req w) as [Hresp Htab].
  rewrite Hresp, Htab. clear Hresp Htab.
  pose proof (dispatch_request_effect core (timed req w)
                (App.mkWorld (App.simulations w) (App.prometheus w)
                   (S (App.perf_reads w)) (App.datetime_reads w) (App.log w))) as H.
  cbv zeta in H.
  change (is_post_simulation (timed req w)) with (is_post_simulation req) in H.
  rewrite Hpost, run_core_timed in H.
  destruct (run_core req); exact H.
Qed.

Lemma wsgi_app_other (env : Env) (core : Core) req w :
  is_post_simulation req = false ->
  App.simulations (snd (App.wsgi_app req w)) = App.simulations w.
Proof.
  intros Hpost.
  destruct (wsgi_app_view core req w) as [_ Htab].
  rewrite Htab. clear Htab.
  pose proof (dispatch_request_effect core (timed req w)
                (App.mkWorld (App.simulations w) (App.prometheus w)
                   (S (App.perf_reads w)) (App.datetime_reads w) (App.log w))) as H.
  cbv zeta in H.
  change (is_post_simulation (timed req w)) with (is_post_simulation req) in H.
  rewrite Hpost in H. apply H.
Qed.

(** C3: when [simulate] returns, the row it has added to the table holds
    [json.dumps(store.store)], and the value it returns is [store.store]
    itself, for the store the simulator has run on; the response Flask sends
    for the request carries that same value. *)
Theorem C3_persisted_is_returned :
  forall (env : Env) (core : Core) (req : App.request) (w : App.world)
         (rv : App.view_result),
    fst (App.simulate req w) = Ok rv ->
    exists init simulator store simulator' store',
      initial_conditions req = Ok init
      /\ Simulator_new QRangeStore_new init = Ok (simulator, store)
      /\ Simulator_simulate simulator store = Ok (simulator', store')
      /\ rv = App.ReturnJson (store_store store')
      /\ App.simulations (snd (App.simulate req w))
         = (App.simulations w
            ++ [Db.mkSimulation (Db.next_id (App.simulations w))
                                (dumps (store_store store'))])%list
      /\ (is_post_simulation req = true ->
          fst (App.wsgi_app req w) = App.mkResponse 200 (App.ReturnJson (store_store store'))
          /\ App.simulations (snd (App.wsgi_app req w))
             = (App.simulations w
                ++ [Db.mkSimulation (Db.next_id (App.simulations w))
                                    (dumps (store_store store'))])%list).
Proof.
  intros env core req w rv Hok.
  pose proof (simulate_cases core req w) as H.
  destruct (initial_conditions req) as [init|e] eqn:Einit;
    [|destruct H as [H _]; congruence].
  destruct (Simulator_new QRangeStore_new init) as [[simulator store]|e] eqn:Enew;
    [|destruct H as [H _]; congruence].
  destruct (Simulator_simulate simulator store) as [[simulator' store']|e] eqn:Esim;
    [|destruct H as [H _]; congruence].
  destruct H as [Hf Ht].
  assert (Hrun : run_core req = Ok (store_store store')).
  { unfold run_core. rewrite Einit. simpl. rewrite Enew. simpl. now rewrite Esim. }
  exists init, simulator, store, simulator', store'.
  repeat split; try congruence; try exact Ht;
    intros; pose proof (wsgi_app_post core req w H) as Hw;
    rewrite Hrun in Hw; apply Hw.
Qed.

(** C8: when [simulator.simulate()] raises, the view raises the same
    exception and the table is as it was before the request: after the
    view, and after the whole request cycle. *)
Theorem C8_failed_run_persists_nothing :
  forall (env : Env) (core : Core) (req : App.request) (w : App.world)
         (init : value) (simulator : Simulator) (store : QRangeStore) (e : exn),
    initial_conditions req = Ok init ->
    Simulator_new QRangeStore_new init = Ok (simulator, store) ->
    Simulator_simulate simulator store = Raise e ->
    fst (App.simulate req w) = Raise e
    /\ App.simulations (snd (App.simulate req w)) = App.simulations w
    /\ App.simulations (snd (App.wsgi_app req w)) = App.simulations w.
Proof.
  intros env core req w init simulator store e Hinit Hnew Hsim.
  pose proof (simulate_cases core req w) as H.
  rewrite Hinit, Hnew, Hsim in H. destruct H as [Hf Ht].
  split; [exact Hf|]. split; [exact Ht|].
  destruct (is_post_simulation req) eqn:Hpost.
  - pose proof (wsgi_app_post core req w Hpost) as Hw.
    unfold run_core in Hw. rewrite Hinit in Hw. simpl in Hw.
    rewrite Hnew in Hw. simpl in Hw. rewrite Hsim in Hw. apply Hw.
  - now apply wsgi_app_other.
Qed.

(** ** Binary64 comparisons *)

Lemma SFeqb_finite_inv s1 m1 e1 s2 m2 e2 :
  SFeqb (S754_finite s1 m1 e1) (S754_finite s2 m2 e2) = true ->
  s1 = s2 /\ m1 = m2 /\ e1 = e2.
Proof.
  unfold SFeqb, SFcompare.
  destruct s1, s2; try discriminate;
    destruct (Z.compare_spec e1 e2) as [He|He|He]; try discriminate;
    change (PosDef.Pos.compare_cont Eq m1 m2) with (Pos.compare m1 m2);
    destruct (Pos.compare_spec m1 m2) as [Hm|Hm|Hm]; try discriminate;
    intros _; auto.
Qed.

Lemma SFcompare_eqb_r a b c :
  SFeqb b c = true -> SFcompare a b = SFcompare a c.
Proof.
  intros H.
  destruct b as [sb|sb| |sb mb eb], c as [sc|sc| |sc mc ec];
    try discriminate H;
    try (destruct sc; discriminate H);
    try (destruct sb; discriminate H).
  - now destruct a.
  - destruct sb, sc; try discriminate H; reflexivity.
  - apply SFeqb_finite_inv in H. destruct H as (-> & -> & ->). reflexivity.
Qed.

Lemma ltb_eqb_trans (a b c : float) :
  (a <? b)%float = true -> (b =? c)%float = true -> (a <? c)%float = true.
Proof.
  rewrite !ltb_spec, FloatAxioms.eqb_spec. unfold SFltb.
  intros Hlt Heq. now rewrite <- (SFcompare_eqb_r (Prim2SF a) _ _ Heq).
Qed.

Lemma SFltb_trans a b c :
  SFltb a b = true -> SFltb b c = true -> SFltb a c = true.
Proof.
  unfold SFltb, SFcompare.
  destruct a as [sa|sa| |sa ma ea], b as [sb|sb| |sb mb eb], c as [sc|sc| |sc mc ec];
    try discriminate;
    repeat match goal with s : bool |- _ => destruct s end;
    try discriminate; try reflexivity;
    change (PosDef.Pos.compare_cont Eq ma mb) with (Pos.compare ma mb);
    change (PosDef.Pos.compare_cont Eq mb mc) with (Pos.compare mb mc);
    change (PosDef.Pos.compare_cont Eq ma mc) with (Pos.compare ma mc);
    destruct (Z.compare_spec ea eb); try discriminate;
    destruct (Z.compare_spec eb ec); try discriminate;
    destruct (Z.compare_spec ea ec); try lia; try reflexivity; try discriminate;
    destruct (Pos.compare_spec ma mb); try discriminate;
    destruct (Pos.compare_spec mb mc); try discriminate;
    destruct (Pos.compare_spec ma mc); try lia; try reflexivity; try discriminate.
Qed.

Lemma ltb_trans (a b c : float) :
  (a <? b)%float = true -> (b <? c)%float = true -> (a <? c)%float = true.
Proof. rewrite !ltb_spec. apply SFltb_trans. Qed.

(** A finite float minus itself is zero. *)
Lemma sub_self (a : float) : is_finite a = true -> (a - a)%float = 0%float.
Proof.
  intros Hfin.
  apply Prim2SF_inj.
  rewrite sub_spec.
  unfold is_finite, is_nan, is_infinity in Hfin.
  rewrite !FloatAxioms.eqb_spec, abs_spec in Hfin.
  change (Prim2SF infinity) with (S754_infinity false) in Hfin.
  change (Prim2SF 0) with (S754_zero false).
  destruct (Prim2SF a) as [s|s| |s m e]; cbn in Hfin; try discriminate;
    try (destruct s; discriminate).
  - destruct s; reflexivity.
  - unfold SF64sub, SFsub. cbv zeta.
    replace (IntDef.Z.min e e) with e by (symmetry; apply Z.min_id).
    unfold shl_align.
    replace (IntDef.Z.sub e e) with 0%Z by (symmetry; apply Z.sub_diag).
    cbn [fst].
    match goal with
    | |- binary_normalize _ _ ?d _ _ = _ =>
        replace d with 0%Z by (symmetry; apply Z.sub_diag)
    end.
    reflexivity.
Qed.

(** ** The RangeStore: contiguity *)

Lemma records_dict_set (store : SpecCore.RangeStore) name name' l :
  SpecCore.records (dict_set store name l) name'
  = if String.eqb name name' then l else SpecCore.records store name'.
Proof.
  unfold SpecCore.records.
  destruct (String.eqb_spec name name') as [->|Hne].
  - now rewrite dict_get_set_eq.
  - now rewrite dict_get_set_neq.
Qed.

Lemma chained_app (l : list SpecCore.Interval) (iv : SpecCore.Interval) :
  chained l ->
  match SpecCore.last_record l with
  | Some r => (SpecCore.end_time r =? SpecCore.start_time iv)%float = true
  | None => True
  end ->
  (SpecCore.start_time iv <? SpecCore.end_time iv)%float = true ->
  chained (l ++ [iv])%list.
Proof.
  intros Hl Hlast Hiv.
  induction l as [|r rest IH]; simpl.
  - auto.
  - destruct Hl as (Hr & Hnext & Hrest).
    split; [exact Hr|].
    destruct rest as [|r' rest']; simpl in *.
    + auto.
    + split; [exact Hnext|]. apply IH; auto.
Qed.

Lemma append_records store name s e st store' :
  SpecCore.append store name s e st = Ok store' ->
  forall name',
    SpecCore.records store' name'
    = if String.eqb name name'
      then (SpecCore.records store name ++ [SpecCore.mkInterval s e st])%list
      else SpecCore.records store name'.
Proof.
  unfold SpecCore.append.
  destruct (_ && _); [|discriminate].
  intros [= <-] name'. apply records_dict_set.
Qed.

Lemma append_chained store name s e st store' :
  store_chained store ->
  SpecCore.append store name s e st = Ok store' ->
  store_chained store'.
Proof.
  intros Hs Happ name'.
  rewrite (append_records _ _ _ _ _ Happ).
  destruct (String.eqb name name'); [|apply Hs].
  unfold SpecCore.append in Happ.
  destruct (SpecCore.last_record (SpecCore.records store name)) as [r|] eqn:Elast;
    simpl in Happ.
  - destruct (SpecCore.end_time r =? s)%float eqn:E1; [|discriminate].
    destruct (s <? e)%float eqn:E2; [|discriminate].
    apply chained_app; auto. now rewrite Elast.
  - destruct (s <? e)%float eqn:E2; [|discriminate].
    apply chained_app; auto. now rewrite Elast.
Qed.

Lemma append_finite store name s e st store' :
  store_finite store ->
  SpecCore.finite_state st = true ->
  SpecCore.append store name s e st = Ok store' ->
  store_finite store'.
Proof.
  intros Hs Hst Happ name' iv.
  rewrite (append_records _ _ _ _ _ Happ).
  destruct (String.eqb name name'); [|apply Hs].
  intros Hin. apply in_app_or in Hin.
  destruct Hin as [Hin|[<-|[]]]; [now apply (Hs name)|exact Hst].
Qed.

Section IntegratorFacts.

Variable interaction : float -> float -> float -> float * float.

Lemma advance_all_invariant accs : forall store out,
  store_chained store -> store_finite store ->
  SpecCore.advance_all accs store = Ok out ->
  store_chained (snd out) /\ store_finite (snd out).
Proof.
  induction accs as [|[name [a acc]] rest IH]; intros store out Hc Hf; simpl.
  - intros [= <-]. auto.
  - destruct (SpecCore.finite_state (SpecCore.advance a acc)) eqn:Efin; [|discriminate].
    destruct (SpecCore.append store name _ _ _) as [store'|e] eqn:Eapp; simpl;
      [|discriminate].
    destruct (SpecCore.advance_all rest store') as [r|e] eqn:Erest; simpl;
      [|discriminate].
    intros [= <-]. simpl.
    apply (IH store' r);
      [eapply append_chained; eauto|eapply append_finite; eauto|exact Erest].
Qed.

Lemma step_invariant agents store out :
  store_chained store -> store_finite store ->
  SpecCore.step interaction agents store = Ok out ->
  store_chained (snd out) /\ store_finite (snd out).
Proof.
  intros Hc Hf. unfold SpecCore.step.
  destruct (SpecCore.accelerations interaction agents agents) as [accs|e]; simpl;
    [|discriminate].
  now apply advance_all_invariant.
Qed.

Lemma iterate_invariant n : forall agents store done,
  store_chained store -> store_finite store ->
  store_chained (SpecCore.store (SpecCore.iterate interaction n agents store done))
  /\ store_finite (SpecCore.store (SpecCore.iterate interaction n agents store done)).
Proof.
  induction n as [|n IH]; intros agents store done Hc Hf; simpl; auto.
  destruct (SpecCore.step interaction agents store) as [[agents' store']|e] eqn:E;
    simpl; auto.
  destruct (@step_invariant agents store _ Hc Hf E). now apply IH.
Qed.

Lemma run_invariant n r :
  store_chained (SpecCore.store r) -> store_finite (SpecCore.store r) ->
  store_chained (SpecCore.store (SpecCore.run interaction n r))
  /\ store_finite (SpecCore.store (SpecCore.run interaction n r)).
Proof.
  intros Hc Hf. unfold SpecCore.run.
  destruct (SpecCore.status r); auto.
  now apply iterate_invariant.
Qed.

End IntegratorFacts.

Lemma create_store store init r :
  SpecCore.create store init = Ok r ->
  SpecCore.store r = store /\ SpecCore.status r = SpecCore.CREATED
  /\ SpecCore.completed r = 0.
Proof.
  unfold SpecCore.create.
  destruct init as [| | | | | |d]; try discriminate.
  destruct d as [|entry d]; [discriminate|].
  destruct (SpecCore.parse_agents (entry :: d)); [|discriminate].
  intros [= <-]. auto.
Qed.

Lemma empty_store_chained : store_chained [].
Proof. intros name. exact I. Qed.

Lemma empty_store_finite : store_finite [].
Proof. intros name iv []. Qed.

Lemma chained_each l i ri :
  chained l -> nth_error l i = Some ri ->
  (SpecCore.start_time ri <? SpecCore.end_time ri)%float = true.
Proof.
  revert i. induction l as [|r rest IH]; intros i Hl Hi.
  - now destruct i.
  - destruct Hl as (Hr & _ & Hrest).
    destruct i as [|i]; simpl in Hi.
    + now injection Hi as <-.
    + eapply IH; eauto.
Qed.

Lemma chained_adjacent l i ri rj :
  chained l -> nth_error l i = Some ri -> nth_error l (S i) = Some rj ->
  (SpecCore.end_time ri =? SpecCore.start_time rj)%float = true.
Proof.
  revert i. induction l as [|r rest IH]; intros i Hl Hi Hj.
  - now destruct i.
  - destruct Hl as (_ & Hnext & Hrest).
    destruct i as [|i]; simpl in Hi, Hj.
    + injection Hi as <-. destruct rest as [|r' rest']; [discriminate|].
      simpl in Hj. now injection Hj as <-.
    + eapply IH; eauto.
Qed.

Lemma chained_head_least r rest :
  chained (r :: rest) ->
  forall r', In r' rest ->
    (SpecCore.start_time r <? SpecCore.start_time r')%float = true.
Proof.
  revert r. induction rest as [|r1 rest IH]; intros r Hl r' Hin; [destruct Hin|].
  destruct Hl as (Hr & Hnext & Hrest).
  assert (H1 : (SpecCore.start_time r <? SpecCore.start_time r1)%float = true)
    by (eapply ltb_eqb_trans; eauto).
  destruct Hin as [<-|Hin]; [exact H1|].
  eapply ltb_trans; [exact H1|]. now apply IH.
Qed.

Lemma chained_increasing l : forall i j ri rj,
  chained l -> i < j -> nth_error l i = Some ri -> nth_error l j = Some rj ->
  (SpecCore.start_time ri <? SpecCore.start_time rj)%float = true.
Proof.
  induction l as [|r rest IH]; intros i j ri rj Hl Hlt Hi Hj.
  - now destruct i.
  - destruct j as [|j]; [lia|]. simpl in Hj.
    destruct i as [|i]; simpl in Hi.
    + injection Hi as <-. eapply chained_head_least; eauto.
      eapply nth_error_In; eauto.
    + destruct Hl as (_ & _ & Hrest).
      apply (IH i j ri rj Hrest); [lia|exact Hi|exact Hj].
Qed.

(** ** The RangeStore after a run *)

(** C5: in the store of every run of the core that was created on a new
    store, completed or not, the records of every agent are contiguous (the
    end of a record is the start of the next), each record starts before it
    ends, and the start times are strictly increasing along the sequence. *)
Theorem C5_records_contiguous_and_increasing :
  forall (interaction : float -> float -> float -> float * float)
         (init : value) (r : SpecCore.SimulationRun) (n : nat) (name : string)
         (i j : nat) (ri rj : SpecCore.Interval),
    SpecCore.create [] init = Ok r ->
    nth_error (SpecCore.records (SpecCore.store (SpecCore.run interaction n r)) name) i
      = Some ri ->
    nth_error (SpecCore.records (SpecCore.store (SpecCore.run interaction n r)) name) j
      = Some rj ->
    (SpecCore.start_time ri <? SpecCore.end_time ri)%float = true
    /\ (j = S i -> (SpecCore.end_time ri =? SpecCore.start_time rj)%float = true)
    /\ (i < j -> (SpecCore.start_time ri <? SpecCore.start_time rj)%float = true).
Proof.
  intros interaction init r n name i j ri rj Hcreate Hi Hj.
  destruct (create_store _ _ Hcreate) as (Hstore & _ & _).
  assert (Hc : store_chained (SpecCore.store (SpecCore.run interaction n r))).
  { apply run_invariant; rewrite Hstore;
      auto using empty_store_chained, empty_store_finite. }
  specialize (Hc name).
  split; [|split].
  - eapply chained_each; eauto.
  - intros ->. eapply chained_adjacent; eauto.
  - intros Hlt. eapply chained_increasing; eauto.
Qed.

(** ** The Integrator: the singularity guard *)

Section GuardFacts.

Variable interaction : float -> float -> float -> float * float.

Lemma pair_effect_raises a b e :
  SpecCore.pair_effect interaction a b = Raise e -> e = NumericalError.
Proof.
  unfold SpecCore.pair_effect.
  destruct (_ =? _)%float; [|discriminate]. now intros [= <-].
Qed.

Lemma pair_effect_coincident a b :
  SpecCore.x a = SpecCore.x b -> SpecCore.y a = SpecCore.y b ->
  is_finite (SpecCore.x a) = true -> is_finite (SpecCore.y a) = true ->
  SpecCore.pair_effect interaction a b = Raise NumericalError.
Proof.
  intros Hx Hy Hfx Hfy. unfold SpecCore.pair_effect.
  rewrite <- Hx, <- Hy, (sub_self _ Hfx), (sub_self _ Hfy).
  reflexivity.
Qed.

Lemma net_effect_raises name a snapshot e :
  SpecCore.net_effect interaction name a snapshot = Raise e -> e = NumericalError.
Proof.
  induction snapshot as [|[name' b] rest IH]; simpl; [discriminate|].
  destruct (String.eqb name' name); auto.
  destruct (SpecCore.pair_effect interaction a b) as [p|e'] eqn:Ep; simpl.
  - destruct (SpecCore.net_effect interaction name a rest); simpl;
      [discriminate|auto].
  - intros [= <-]. eapply pair_effect_raises; eauto.
Qed.

Lemma net_effect_coincident name a snapshot nameB b :
  In (nameB, b) snapshot -> nameB <> name ->
  SpecCore.pair_effect interaction a b = Raise NumericalError ->
  SpecCore.net_effect interaction name a snapshot = Raise NumericalError.
Proof.
  intros Hin Hne Hpair.
  induction snapshot as [|[name' b'] rest IH]; simpl; [destruct Hin|].
  destruct Hin as [[= -> ->]|Hin].
  - destruct (String.eqb_spec nameB name) as [->|_]; [congruence|].
    now rewrite Hpair.
  - destruct (String.eqb name' name); auto.
    destruct (SpecCore.pair_effect interaction a b') as [p|e'] eqn:Ep; simpl.
    + now rewrite IH.
    + f_equal. eapply pair_effect_raises; eauto.
Qed.

Lemma accelerations_raises snapshot todo e :
  SpecCore.accelerations interaction snapshot todo = Raise e -> e = NumericalError.
Proof.
  induction todo as [|[name a] rest IH]; simpl; [discriminate|].
  destruct (SpecCore.net_effect interaction name a snapshot) as [acc|e'] eqn:En; simpl.
  - destruct (SpecCore.accelerations interaction snapshot rest); simpl;
      [discriminate|auto].
  - intros [= <-]. eapply net_effect_raises; eauto.
Qed.

Lemma accelerations_coincident snapshot todo name a :
  In (name, a) todo ->
  SpecCore.net_effect interaction name a snapshot = Raise NumericalError ->
  SpecCore.accelerations interaction snapshot todo = Raise NumericalError.
Proof.
  intros Hin Hnet.
  induction todo as [|[name' a'] rest IH]; simpl; [destruct Hin|].
  destruct Hin as [[= -> ->]|Hin].
  - now rewrite Hnet.
  - destruct (SpecCore.net_effect interaction name' a' snapshot) as [acc|e'] eqn:En;
      simpl.
    + now rewrite IH.
    + f_equal. eapply net_effect_raises; eauto.
Qed.

Lemma advance_all_registry_finite accs : forall store out,
  SpecCore.advance_all accs store = Ok out -> registry_finite (fst out).
Proof.
  induction accs as [|[name [a acc]] rest IH]; intros store out; simpl.
  - intros [= <-] name a [].
  - destruct (SpecCore.finite_state (SpecCore.advance a acc)) eqn:Efin; [|discriminate].
    destruct (SpecCore.append store name _ _ _) as [store'|e]; simpl; [|discriminate].
    destruct (SpecCore.advance_all rest store') as [r|e] eqn:Erest; simpl;
      [|discriminate].
    intros [= <-] name' a' [[= <- <-]|Hin]; [exact Efin|].
    eapply IH; eauto.
Qed.

Lemma iterate_registry_finite n : forall agents store done,
  (0 < done -> registry_finite agents) ->
  0 < SpecCore.completed (SpecCore.iterate interaction n agents store done) ->
  registry_finite (SpecCore.agents (SpecCore.iterate interaction n agents store done)).
Proof.
  induction n as [|n IH]; intros agents store done Hdone; simpl; auto.
  destruct (SpecCore.step interaction agents store) as [[agents' store']|e] eqn:E;
    simpl; auto.
  apply IH. intros _.
  unfold SpecCore.step in E.
  destruct (SpecCore.accelerations interaction agents agents) as [accs|e]; simpl in E;
    [|discriminate].
  apply (advance_all_registry_finite _ _ E).
Qed.

Lemma iterate_terminal n agents store done :
  SpecCore.status (SpecCore.iterate interaction n agents store done)
  <> SpecCore.CREATED.
Proof.
  revert agents store done.
  induction n as [|n IH]; intros agents store done; simpl; [discriminate|].
  destruct (SpecCore.step interaction agents store) as [[agents' store']|e];
    [apply IH|discriminate].
Qed.

End GuardFacts.

(** C6: for every run that [create] makes on a new store:
    - when two of its agents have identical finite coordinates, the run
      fails in its first iteration with a NumericalError: no iteration is
      completed, nothing is written to the store, and the failed run does not
      go on when it is run again;
    - whatever its agents are and however long it runs, failed or not, every
      state written to the store is finite;
    - and so is every state of the registry once an iteration has
      completed: the run never goes on from a non-finite state. *)
Theorem C6_coincident_agents_raise_numerical_error :
  forall (interaction : float -> float -> float -> float * float)
         (init : value) (r : SpecCore.SimulationRun),
    SpecCore.create [] init = Ok r ->
    (forall (nameA nameB : string) (a b : SpecCore.AgentState) (n : nat),
        In (nameA, a) (SpecCore.agents r) ->
        In (nameB, b) (SpecCore.agents r) ->
        nameA <> nameB ->
        SpecCore.x a = SpecCore.x b ->
        SpecCore.y a = SpecCore.y b ->
        is_finite (SpecCore.x a) = true ->
        is_finite (SpecCore.y a) = true ->
        SpecCore.run interaction (S n) r
          = SpecCore.mkSimulationRun (SpecCore.agents r) []
              (SpecCore.FAILED NumericalError) 0
        /\ SpecCore.simulate interaction (S n) r [] = Raise NumericalError
        /\ (forall m, SpecCore.run interaction m (SpecCore.run interaction (S n) r)
                      = SpecCore.run interaction (S n) r))
    /\ (forall (m : nat) (name : string) (iv : SpecCore.Interval),
          In iv (SpecCore.records (SpecCore.store (SpecCore.run interaction m r)) name) ->
          SpecCore.finite_state (SpecCore.state iv) = true)
    /\ (forall m : nat,
          0 < SpecCore.completed (SpecCore.run interaction m r) ->
          registry_finite (SpecCore.agents (SpecCore.run interaction m r))).
Proof.
  intros interaction init r Hcreate.
  destruct (create_store _ _ Hcreate) as (Hstore & Hstatus & Hdone).
  split; [|split].
  - intros nameA nameB a b n HA HB Hne Hx Hy Hfx Hfy.
    assert (Hstep : SpecCore.step interaction (SpecCore.agents r) []
                    = Raise NumericalError).
    { unfold SpecCore.step.
      rewrite (accelerations_coincident interaction (SpecCore.agents r) _ _ _ HA); auto.
      eapply net_effect_coincident; eauto.
      now apply pair_effect_coincident. }
    assert (Hrun : SpecCore.run interaction (S n) r
                   = SpecCore.mkSimulationRun (SpecCore.agents r) []
                       (SpecCore.FAILED NumericalError) 0).
    { unfold SpecCore.run. rewrite Hstatus, Hstore. simpl. now rewrite Hstep. }
    split; [exact Hrun|]. split.
    + unfold SpecCore.simulate.
      replace (SpecCore.mkSimulationRun (SpecCore.agents r) [] (SpecCore.status r)
                 (SpecCore.completed r)) with r
        by (destruct r; simpl in *; congruence).
      now rewrite Hrun.
    + intros m. now rewrite Hrun.
  - intros m name iv.
    apply (run_invariant interaction m r); rewrite Hstore;
      auto using empty_store_chained, empty_store_finite.
  - intros m. unfold SpecCore.run. rewrite Hstatus.
    apply iterate_registry_finite. lia.
Qed.

(** ** Validation *)

Lemma field_missing_or_not_numeric agent k :
  missing_or_not_numeric agent k = true -> SpecCore.field agent k = None.
Proof.
  unfold missing_or_not_numeric, SpecCore.field.
  destruct (dict_get agent k) as [[| | | | | |]|]; simpl; auto; discriminate.
Qed.

Lemma parse_agent_malformed v : malformed v = true -> SpecCore.parse_agent v = None.
Proof.
  destruct v as [| | | | | |agent]; simpl; auto.
  intros H.
  destruct (forallb _ _); auto.
  unfold SpecCore.known_fields in H. simpl in H.
  repeat match type of H with
         | (?b || _) = true =>
             let E := fresh "E" in
             destruct b eqn:E;
             [apply field_missing_or_not_numeric in E; rewrite E;
              repeat match goal with |- context [SpecCore.field ?d ?k] =>
                       destruct (SpecCore.field d k) end; reflexivity
             |simpl in H]
         end.
  discriminate.
Qed.

Lemma parse_agents_malformed (d : dict) name v :
  In (name, v) d -> malformed v = true -> SpecCore.parse_agents d = None.
Proof.
  intros Hin Hmal.
  induction d as [|[name' v'] rest IH]; simpl; [destruct Hin|].
  destruct Hin as [[= -> ->]|Hin].
  - now rewrite (parse_agent_malformed _ Hmal).
  - rewrite (IH Hin). now destruct (SpecCore.parse_agent v').
Qed.

(** C2: [create] fails with a ValidationError on an empty mapping and on a
    mapping with a malformed agent.  With this core behind [app.py], a
    [POST /simulation] whose body is [null] or the empty mapping ends in
    that ValidationError at the construction of the simulator, before
    [simulate()] is called: nothing is logged, no row is added, and the
    response is a 500.  A request without a JSON body ends in the HTTP
    error Flask raises for it, with no row added either. *)
Theorem C2_create_validates_initial_conditions :
  forall (env : Env) (interaction : float -> float -> float -> float * float)
         (iterations : nat),
    (forall (store : SpecCore.RangeStore) (d : dict),
        d = [] \/ (exists name v, In (name, v) d /\ malformed v = true) ->
        SpecCore.create store (VDict d) = Raise ValidationError)
    /\ (forall (req : App.request) (w : App.world),
          App.json req = Ok VNone \/ App.json req = Ok (VDict []) ->
          App.simulate (core := SpecCore.core interaction iterations) req w
            = (Raise ValidationError,
               App.mkWorld (App.simulations w)
                 (SIMULATION_DURATION_observe (App.prometheus w)
                    (perf_counter_at (S (App.perf_reads w))
                     - perf_counter_at (App.perf_reads w))%float)
                 (S (S (App.perf_reads w))) (S (App.datetime_reads w)) (App.log w))
          /\ (is_post_simulation req = true ->
              fst (App.wsgi_app (core := SpecCore.core interaction iterations) req w)
              = App.mkResponse 500 (App.ReturnStr "")
              /\ App.simulations
                   (snd (App.wsgi_app (core := SpecCore.core interaction iterations) req w))
                 = App.simulations w))
    /\ (forall (req : App.request) (w : App.world) (e : exn),
          App.json req = Raise e ->
          fst (App.simulate (core := SpecCore.core interaction iterations) req w) = Raise e
          /\ App.simulations
               (snd (App.simulate (core := SpecCore.core interaction iterations) req w))
             = App.simulations w
          /\ App.log (snd (App.simulate (core := SpecCore.core interaction iterations) req w))
             = App.log w).
Proof.
  intros env interaction iterations. split; [|split].
  - intros store d [->|(name & v & Hin & Hmal)]; [reflexivity|].
    unfold SpecCore.create.
    destruct d as [|entry d]; [destruct Hin|].
    now rewrite (parse_agents_malformed _ _ _ Hin Hmal).
  - intros req w Hjson.
    set (core := SpecCore.core interaction iterations).
    assert (Hview : App.simulate req w
                    = (Raise ValidationError,
                       App.mkWorld (App.simulations w)
                         (SIMULATION_DURATION_observe (App.prometheus w)
                            (perf_counter_at (S (App.perf_reads w))
                             - perf_counter_at (App.perf_reads w))%float)
                         (S (S (App.perf_reads w))) (S (App.datetime_reads w))
                         (App.log w))).
    { unfold App.simulate, App.with_SIMULATION_DURATION_time, App.bindM, App.lift.
      destruct Hjson as [Hjson|Hjson]; rewrite Hjson; reflexivity. }
    split; [exact Hview|].
    intros Hpost.
    pose proof (wsgi_app_post core req w Hpost) as Hw.
    assert (Hrun : run_core req = Raise ValidationError).
    { unfold run_core, initial_conditions.
      destruct Hjson as [Hjson|Hjson]; rewrite Hjson; reflexivity. }
    rewrite Hrun in Hw. exact Hw.
  - intros req w e Hjson.
    unfold App.simulate, App.with_SIMULATION_DURATION_time, App.bindM, App.lift.
    rewrite Hjson. simpl. auto.
Qed.

Lemma C2_create_validates_initial_conditions_witness :
  SpecCore.create [] (VDict []) = Raise ValidationError
  /\ SpecCore.create [] (VDict body_without_velocity) = Raise ValidationError
  /\ fst (App.wsgi_app (env := Demo.env) (core := demo_core) (Demo.post VNone) Demo.world0)
     = App.mkResponse 500 (App.ReturnStr "")
  /\ App.simulations
       (snd (App.wsgi_app (env := Demo.env) (core := demo_core)
               (Demo.post (VDict [])) Demo.world0)) = [].
Proof.
  destruct (C2_create_validates_initial_conditions Demo.env Demo.gravity 2)
    as (Hcreate & Hpost & _).
  split; [|split; [|split]].
  - apply Hcreate. now left.
  - apply Hcreate. right.
    exists "Body2", (VDict [("x", VInt 1); ("y", VInt 0);
                            ("time", VInt 0); ("timeStep", VFloat 0.01)]).
    split; [right; left; reflexivity|reflexivity].
  - apply (Hpost (Demo.post VNone) Demo.world0); [now left|reflexivity].
  - apply (Hpost (Demo.post (VDict [])) Demo.world0); [now right|reflexivity].
Defined.

Lemma C3_persisted_is_returned_witness :
  exists (init : value) (simulator : SpecCore.SimulationRun)
         (store : SpecCore.RangeStore) (simulator' : SpecCore.SimulationRun)
         (store' : SpecCore.RangeStore),
    initial_conditions (Demo.post (VDict two_bodies)) = Ok init
    /\ Simulator_new (Core := demo_core) [] init = Ok (simulator, store)
    /\ Simulator_simulate (Core := demo_core) simulator store = Ok (simulator', store')
    /\ App.ReturnJson (SpecCore.export (SpecCore.store (SpecCore.run Demo.gravity 2 two_bodies_run)))
       = App.ReturnJson (SpecCore.export store')
    /\ App.simulations
         (snd (App.simulate (env := Demo.env) (core := demo_core)
                 (Demo.post (VDict two_bodies)) Demo.world0))
       = ([] ++ [Db.mkSimulation (Db.next_id []) (Demo.print (SpecCore.export store'))])%list
    /\ (is_post_simulation (Demo.post (VDict two_bodies)) = true ->
        fst (App.wsgi_app (env := Demo.env) (core := demo_core)
               (Demo.post (VDict two_bodies)) Demo.world0)
        = App.mkResponse 200 (App.ReturnJson (SpecCore.export store'))
        /\ App.simulations
             (snd (App.wsgi_app (env := Demo.env) (core := demo_core)
                     (Demo.post (VDict two_bodies)) Demo.world0))
           = ([] ++ [Db.mkSimulation (Db.next_id [])
                       (Demo.print (SpecCore.export store'))])%list).
Proof.
  apply (@C3_persisted_is_returned Demo.env demo_core
           (Demo.post (VDict two_bodies)) Demo.world0
           (App.ReturnJson
              (SpecCore.export
                 (SpecCore.store (SpecCore.run Demo.gravity 2 two_bodies_run))))).
  vm_compute. reflexivity.
Defined.

Lemma C5_records_contiguous_and_increasing_witness :
  exists ri rj : SpecCore.Interval,
    nth_error (SpecCore.records
                 (SpecCore.store (SpecCore.run Demo.gravity 3 two_bodies_run)) "Body1") 0
      = Some ri
    /\ nth_error (SpecCore.records
                    (SpecCore.store (SpecCore.run Demo.gravity 3 two_bodies_run)) "Body1") 1
       = Some rj
    /\ (SpecCore.start_time ri <? SpecCore.end_time ri)%float = true
    /\ (SpecCore.end_time ri =? SpecCore.start_time rj)%float = true
    /\ (SpecCore.start_time ri <? SpecCore.start_time rj)%float = true.
Proof.
  eexists. eexists.
  split; [vm_compute; reflexivity|].
  split; [vm_compute; reflexivity|].
  match goal with
  | |- (SpecCore.start_time ?ri <? _)%float = true
       /\ (_ =? SpecCore.start_time ?rj)%float = true /\ _ =>
      destruct (@C5_records_contiguous_and_increasing Demo.gravity two_bodies_init
                  two_bodies_run 3 "Body1" 0 1 ri rj)
        as (Heach & Hadj & Hinc)
  end.
  - vm_compute. reflexivity.
  - vm_compute. reflexivity.
  - vm_compute. reflexivity.
  - split; [exact Heach|]. split; [apply Hadj; reflexivity|apply Hinc; lia].
Defined.

Lemma C6_coincident_agents_raise_numerical_error_witness :
  (SpecCore.run Demo.gravity 1 coincident_run
     = SpecCore.mkSimulationRun coincident_registry [] (SpecCore.FAILED NumericalError) 0
   /\ SpecCore.simulate Demo.gravity 1 coincident_run [] = Raise NumericalError)
  /\ (List.length
        (SpecCore.records (SpecCore.store (SpecCore.run Demo.gravity 3 two_bodies_run))
           "Body1") = 3
      /\ (forall iv,
            In iv (SpecCore.records
                     (SpecCore.store (SpecCore.run Demo.gravity 3 two_bodies_run)) "Body1") ->
            SpecCore.finite_state (SpecCore.state iv) = true)
      /\ registry_finite (SpecCore.agents (SpecCore.run Demo.gravity 3 two_bodies_run)))
  /\ (SpecCore.status (SpecCore.run Demo.gravity 1 runaway_run)
        = SpecCore.FAILED NumericalError
      /\ forall name iv,
           In iv (SpecCore.records
                    (SpecCore.store (SpecCore.run Demo.gravity 1 runaway_run)) name) ->
           SpecCore.finite_state (SpecCore.state iv) = true).
Proof.
  split; [|split].
  - destruct (@C6_coincident_agents_raise_numerical_error Demo.gravity coincident_init
                coincident_run) as (Hfail & _ & _).
    + vm_compute. reflexivity.
    + destruct (Hfail "Body1" "Body2"
                  (SpecCore.mkAgentState 1 2 0 0 0 0.01)
                  (SpecCore.mkAgentState 1 2 0 0 0 0.01) 0)
        as (Hrun & Hsim & _).
      * left. reflexivity.
      * right. left. reflexivity.
      * discriminate.
      * reflexivity.
      * reflexivity.
      * reflexivity.
      * reflexivity.
      * split; [exact Hrun|exact Hsim].
  - destruct (@C6_coincident_agents_raise_numerical_error Demo.gravity two_bodies_init
                two_bodies_run) as (_ & Hstore & Hregistry).
    + vm_compute. reflexivity.
    + split; [vm_compute; reflexivity|]. split.
      * intros iv. apply (Hstore 3 "Body1" iv).
      * apply (Hregistry 3). vm_compute. lia.
  - destruct (@C6_coincident_agents_raise_numerical_error Demo.gravity runaway_init
                runaway_run) as (_ & Hstore & _).
    + vm_compute. reflexivity.
    + split; [vm_compute; reflexivity|].
      intros name iv. apply (Hstore 1 name iv).
Defined.

Lemma C8_failed_run_persists_nothing_witness :
  fst (App.simulate (env := Demo.env) (core := demo_core)
         (Demo.post (VDict coincident_bodies)) Demo.world0) = Raise NumericalError
  /\ App.simulations
       (snd (App.simulate (env := Demo.env) (core := demo_core)
               (Demo.post (VDict coincident_bodies)) Demo.world0)) = []
  /\ App.simulations
       (snd (App.wsgi_app (env := Demo.env) (core := demo_core)
               (Demo.post (VDict coincident_bodies)) Demo.world0)) = [].
Proof.
  apply (@C8_failed_run_persists_nothing Demo.env demo_core
           (Demo.post (VDict coincident_bodies)) Demo.world0
           coincident_init coincident_run [] NumericalError).
  - vm_compute. reflexivity.
  - vm_compute. reflexivity.
  - vm_compute. reflexivity.
Defined.

(** ** The model on concrete requests *)

(** A histogram that raises: the hook still hands the response back, and
    the count is not recorded. *)
Example record_metrics_swallows_ValueError :
  App._record_metrics (env := failing_env)
    (App.mkRequest "GET" "/" (Raise (HTTPException 415)) (Some 0%float))
    (App.mkResponse 200 (App.ReturnStr "ok"))
    (App.initial_world (env := failing_env) [])
  = (Ok (App.mkResponse 200 (App.ReturnStr "ok")),
     App.mkWorld (env := failing_env) [] [] 1 0 []).
Proof. reflexivity. Qed.

(** A run, then a read: the read returns the text stored by the run. *)
Example post_then_get :
  let session := App.serve (env := Demo.env) (core := demo_core)
                   [Demo.post (VDict two_bodies); Demo.get] Demo.world0 in
  let doc := SpecCore.export
               (SpecCore.store (SpecCore.run Demo.gravity 2 two_bodies_run)) in
  fst session = [App.mkResponse 200 (App.ReturnJson doc);
                 App.mkResponse 200 (App.ReturnStr (Demo.print doc))]
  /\ map Db.id (App.simulations (snd session)) = [1%Z].
Proof. split; vm_compute; reflexivity. Qed.

(** A failed run between two reads changes nothing. *)
Example failed_post_between_gets :
  let session := App.serve (env := Demo.env) (core := demo_core)
                   [Demo.get; Demo.post (VDict coincident_bodies); Demo.get]
                   Demo.world0 in
  map App.status_code (fst session) = [200%Z; 500%Z; 200%Z]
  /\ App.simulations (snd session) = [].
Proof. vm_compute. split; reflexivity. Qed.

(** The point query of the store: the record that contains the time. *)
Example query_inside_second_interval :
  option_map SpecCore.start_time
    (SpecCore.query (SpecCore.store (SpecCore.run Demo.gravity 3 two_bodies_run))
       "Body1" 0.015%float)
  = Some 0.01%float.
Proof. vm_compute. reflexivity. Qed.

(** * Further properties of [app.py] *)

(** ** Line 110: bodies that are no mapping *)

Lemma define_times_empty : App.define_times (VDict []) = Ok (VDict []).
Proof. reflexivity. Qed.

Lemma define_times_not_object (v : value) :
  is_object v = false -> App.define_times v = Raise AttributeError.
Proof. destruct v; simpl; try reflexivity; discriminate. Qed.

(** X1: [request.json or {}] (line 110).  A falsy body ([null], [false],
    [0], [0.0], the empty string, the empty list, the empty mapping) is
    replaced by the empty mapping, so the request runs the core exactly as a
    request with body [{}] does.  A truthy body that is no mapping (a number,
    a string, a non-empty list, [true]) has no [keys]: the view raises
    AttributeError at line 111, before the clock of line 116 is read,
    nothing is logged and no row is added. *)
Theorem X1_falsy_body_is_empty_mapping :
  forall (env : Env) (core : Core) (req : App.request) (w : App.world) (body : value),
    App.json req = Ok body ->
    (truthy body = false ->
       initial_conditions req = Ok (VDict [])
       /\ App.simulate req w = App.simulate (with_json req (Ok (VDict []))) w)
    /\ (truthy body = true -> is_object body = false ->
          initial_conditions req = Raise AttributeError
          /\ App.simulate req w = (Raise AttributeError, timed_only w)).
Proof.
  intros env core req w body Hjson. split.
  - intros Hfalsy.
    assert (Hinit : or_else body (VDict []) = VDict [])
      by (unfold or_else; now rewrite Hfalsy).
    split.
    + unfold initial_conditions. rewrite Hjson. simpl. now rewrite Hinit.
    + unfold App.simulate, App.with_SIMULATION_DURATION_time, App.bindM, App.lift.
      simpl. rewrite Hjson, Hinit. reflexivity.
  - intros Htruthy Hobj.
    assert (Hinit : or_else body (VDict []) = body)
      by (unfold or_else; now rewrite Htruthy).
    split.
    + unfold initial_conditions. rewrite Hjson. simpl. rewrite Hinit.
      now apply define_times_not_object.
    + unfold App.simulate, App.with_SIMULATION_DURATION_time, App.bindM, App.lift.
      simpl. rewrite Hjson, Hinit, (define_times_not_object _ Hobj). reflexivity.
Qed.

Lemma X1_falsy_body_is_empty_mapping_witness :
  (truthy (VList []) = false ->
     initial_conditions (Demo.post (VList [])) = Ok (VDict [])
     /\ App.simulate (env := Demo.env) (core := demo_core) (Demo.post (VList [])) Demo.world0
        = App.simulate (env := Demo.env) (core := demo_core)
            (with_json (Demo.post (VList [])) (Ok (VDict []))) Demo.world0)
  /\ (truthy (VList []) = true -> is_object (VList []) = false ->
        initial_conditions (Demo.post (VList [])) = Raise AttributeError
        /\ App.simulate (env := Demo.env) (core := demo_core) (Demo.post (VList []))
             Demo.world0
           = (Raise AttributeError, timed_only Demo.world0)).
Proof.
  apply (@X1_falsy_body_is_empty_mapping Demo.env demo_core (Demo.post (VList []))
           Demo.world0 (VList [])).
  reflexivity.
Defined.

(** ** Lines 111-113: agents that are no object *)

Lemma for_each_not_object ks : forall (d : dict) key v,
  In key ks ->
  dict_get d key = Some v ->
  is_object v = false ->
  (forall k, In k ks -> exists v', dict_get d k = Some v') ->
  App.for_each ks
    (fun key init =>
       init <- App.setitem_in init key "time" (VInt 0) ;;
       App.setitem_in init key "timeStep" (VFloat 0.01))
    (VDict d)
  = Raise TypeError.
Proof.
  induction ks as [|k ks IH]; intros d key v Hin Hget Hobj Hks; [destruct Hin|].
  simpl.
  destruct (Hks k (or_introl eq_refl)) as [vk Hvk].
  destruct (is_object vk) eqn:Ek.
  - destruct vk as [| | | | | |agent]; try discriminate Ek.
    rewrite (loop_body_object _ _ Hvk). simpl.
    destruct (String.eqb_spec k key) as [->|Hne].
    + rewrite Hvk in Hget. injection Hget as <-. discriminate Hobj.
    + destruct Hin as [->|Hin]; [congruence|].
      apply (IH (dict_set d k (VDict (with_times agent))) key v); auto.
      * now rewrite dict_get_set_neq.
      * intros k' Hk'. destruct (String.eqb_spec k k') as [->|Hne'].
        -- rewrite dict_get_set_eq. eauto.
        -- rewrite dict_get_set_neq by assumption. apply Hks. now right.
  - unfold App.setitem_in at 1. simpl. rewrite Hvk. simpl.
    destruct vk; try discriminate Ek; reflexivity.
Qed.

(** X2: lines 111-113 on an agent that is no object.  When the body is a
    mapping in which some name maps to a number, a string, a list, a boolean
    or [null], the item assignment of line 112 raises TypeError; the view
    ends there, before the clock of line 116 is read: the core is not
    constructed, nothing is logged and no row is added. *)
Theorem X2_agent_must_be_object :
  forall (env : Env) (core : Core) (req : App.request) (w : App.world)
         (init : dict) (key : string) (v : value),
    App.json req = Ok (VDict init) ->
    dict_get init key = Some v ->
    is_object v = false ->
    initial_conditions req = Raise TypeError
    /\ App.simulate req w = (Raise TypeError, timed_only w).
Proof.
  intros env core req w init key v Hjson Hget Hobj.
  assert (Hdef : App.define_times (VDict init) = Raise TypeError).
  { unfold App.define_times. simpl.
    apply (@for_each_not_object (keys init) init key v); auto.
    - apply dict_get_In in Hget. unfold keys. now apply (in_map fst) in Hget.
    - intros k. apply In_keys_dict_get. }
  split.
  - unfold initial_conditions. rewrite Hjson. simpl. now rewrite or_else_dict.
  - unfold App.simulate, App.with_SIMULATION_DURATION_time, App.bindM, App.lift.
    simpl. rewrite Hjson, or_else_dict, Hdef. reflexivity.
Qed.

Lemma X2_agent_must_be_object_witness :
  initial_conditions (Demo.post (VDict body_with_number_agent)) = Raise TypeError
  /\ App.simulate (env := Demo.env) (core := demo_core)
       (Demo.post (VDict body_with_number_agent)) Demo.world0
     = (Raise TypeError, timed_only Demo.world0).
Proof.
  apply (@X2_agent_must_be_object Demo.env demo_core
           (Demo.post (VDict body_with_number_agent)) Demo.world0
           body_with_number_agent "Body2" (VInt 7));
    reflexivity.
Defined.

(** ** The hooks around the view *)

Lemma record_metrics_world (env : Env) req resp w start :
  App._start_time req = Some start ->
  snd (App._record_metrics req resp w)
  = App.mkWorld (App.simulations w)
      (recorded (App.prometheus w) (App.method req) (path_label req)
         (App.str (App.status_code resp))
         (perf_counter_at (App.perf_reads w) - start)%float)
      (S (App.perf_reads w)) (App.datetime_reads w) (App.log w).
Proof.
  intros Hstart.
  unfold App._record_metrics, App.bindM, App.try_except, App.ret, recorded, path_label.
  rewrite Hstart. simpl. unfold App.update_registry. simpl.
  destruct (REQUEST_LATENCY_observe _ _ _ _) as [r|e]; simpl; [|reflexivity].
  destruct (REQUEST_COUNT_inc _ _ _ _) as [r'|e]; reflexivity.
Qed.

(** A request, whole: the response made of the view's outcome, and the
    world the after-request hook leaves. *)
Lemma wsgi_app_cycle (env : Env) (core : Core) req w :
  let out := App.dispatch_request (timed req w) (after_timer w) in
  let resp := match fst out with
              | Ok rv => App.make_response rv
              | Raise e => App.handle_exception e
              end in
  App.wsgi_app req w
  = (resp,
     App.mkWorld (App.simulations (snd out))
       (recorded (App.prometheus (snd out)) (App.method req) (path_label req)
          (App.str (App.status_code resp))
          (perf_counter_at (App.perf_reads (snd out))
           - perf_counter_at (App.perf_reads w))%float)
       (S (App.perf_reads (snd out))) (App.datetime_reads (snd out))
       (App.log (snd out))).
Proof.
  intros out resp. subst resp.
  destruct out as [r w2] eqn:E. subst out. unfold timed, after_timer in E.
  cbv [App.wsgi_app App.full_dispatch_request App._start_timer App.bindM
       App.try_except App.ret App.perf_counter].
  rewrite E. cbv [fst snd].
  destruct r as [rv|e].
  - pose proof (record_metrics_returns (timed req w) (App.make_response rv) w2) as Hf.
    pose proof (@record_metrics_world env (timed req w) (App.make_response rv) w2
                  _ eq_refl) as Hw.
    unfold timed in Hf, Hw.
    destruct (App._record_metrics _ _ w2) as [r w3]; simpl in *. now subst r w3.
  - pose proof (record_metrics_returns (timed req w) (App.handle_exception e) w2) as Hf.
    pose proof (@record_metrics_world env (timed req w) (App.handle_exception e) w2
                  _ eq_refl) as Hw.
    unfold timed in Hf, Hw.
    destruct (App._record_metrics _ _ w2) as [r w3]; simpl in *. now subst r w3.
Qed.

(** A view other than [simulate] leaves the world as it finds it. *)
Lemma dispatch_request_read_only (env : Env) (core : Core) req w :
  is_post_simulation req = false -> snd (App.dispatch_request req w) = w.
Proof.
  unfold is_post_simulation, App.dispatch_request.
  destruct (String.eqb (App.path req) "/").
  { intros _.
    destruct (_ || _); [|destruct (String.eqb (App.method req) "OPTIONS")];
      reflexivity. }
  destruct (String.eqb (App.path req) "/metrics").
  { intros _.
    destruct (_ || _); [|destruct (String.eqb (App.method req) "OPTIONS")];
      reflexivity. }
  destruct (String.eqb (App.path req) "/simulation"); [|reflexivity].
  simpl.
  destruct (_ || _); [reflexivity|].
  destruct (String.eqb (App.method req) "POST"); [discriminate|].
  intros _. destruct (String.eqb (App.method req) "OPTIONS"); reflexivity.
Qed.

(** X3: the hooks of lines 64-79 in the request cycle.  Whatever the view
    does, returns or raises, the after-request hook finds the start time
    that the before-request hook has set for this request (a start time left
    on the request is overwritten), observes as latency the clock reading it
    takes minus that start, and counts the request under its method, its
    path ([/] for an empty path) and the status of the response that is
    sent, a 500 included.  The hook reads the clock once and touches
    neither the table nor the log. *)
Theorem X3_every_request_is_recorded :
  forall (env : Env) (core : Core) (req : App.request) (w : App.world),
    let after_view := snd (App.dispatch_request (timed req w) (after_timer w)) in
    let sent := fst (App.wsgi_app req w) in
    let left := snd (App.wsgi_app req w) in
    App.prometheus left
    = recorded (App.prometheus after_view) (App.method req) (path_label req)
        (App.str (App.status_code sent))
        (perf_counter_at (App.perf_reads after_view)
         - perf_counter_at (App.perf_reads w))%float
    /\ App.perf_reads left = S (App.perf_reads after_view)
    /\ App.simulations left = App.simulations after_view
    /\ App.log left = App.log after_view
    /\ App.datetime_reads left = App.datetime_reads after_view.
Proof.
  intros env core req w. cbv zeta.
  pose proof (wsgi_app_cycle core req w) as H. cbv zeta in H.
  rewrite H. simpl. repeat split; reflexivity.
Qed.

(** X4: every request that is not [POST /simulation] (the health check, the
    metrics, the reads of the latest run, unknown paths and methods) leaves
    the table, the log and the wall clock untouched: only the metric
    registry and the performance counter move, by one recording and two
    readings. *)
Theorem X4_other_requests_are_read_only :
  forall (env : Env) (core : Core) (req : App.request) (w : App.world),
    is_post_simulation req = false ->
    snd (App.wsgi_app req w)
    = App.mkWorld (App.simulations w)
        (recorded (App.prometheus w) (App.method req) (path_label req)
           (App.str (App.status_code (fst (App.wsgi_app req w))))
           (perf_counter_at (S (App.perf_reads w)) - perf_counter_at (App.perf_reads w))%float)
        (S (S (App.perf_reads w))) (App.datetime_reads w) (App.log w).
Proof.
  intros env core req w Hother.
  pose proof (wsgi_app_cycle core req w) as H. cbv zeta in H.
  rewrite H. simpl.
  rewrite (dispatch_request_read_only core (timed req w) (after_timer w) Hother).
  reflexivity.
Qed.

Lemma X4_other_requests_are_read_only_witness :
  App.simulations
    (snd (App.wsgi_app (env := Demo.env) (core := demo_core) Demo.get Demo.world0)) = []
  /\ App.log
       (snd (App.wsgi_app (env := Demo.env) (core := demo_core) Demo.get Demo.world0)) = []
  /\ App.datetime_reads
       (snd (App.wsgi_app (env := Demo.env) (core := demo_core) Demo.get Demo.world0)) = 0.
Proof.
  rewrite (@X4_other_requests_are_read_only Demo.env demo_core Demo.get Demo.world0
             eq_refl).
  repeat split.
Defined.

(** X5: [GET /metrics] (lines 81-83) answers 200 with the exposition of the
    registry as it is before the request itself is recorded: the latency
    and the count of the scrape are added by the after-request hook, after
    the text has been generated. *)
Theorem X5_metrics_excludes_own_request :
  forall (env : Env) (core : Core) (w : App.world) (j : result value)
         (st : option float),
    fst (App.wsgi_app (App.mkRequest "GET" "/metrics" j st) w)
    = App.mkResponse 200
        (App.ReturnTuple (generate_latest (App.prometheus w)) 200 CONTENT_TYPE_LATEST)
    /\ App.prometheus (snd (App.wsgi_app (App.mkRequest "GET" "/metrics" j st) w))
       = recorded (App.prometheus w) "GET" "/metrics" "200"
           (perf_counter_at (S (App.perf_reads w)) - perf_counter_at (App.perf_reads w))%float.
Proof.
  intros env core w j st.
  pose proof (wsgi_app_cycle core (App.mkRequest "GET" "/metrics" j st) w) as H.
  cbv zeta in H. rewrite H. split; reflexivity.
Qed.

(** ** [POST /simulation]: metrics, log and clocks *)

(** X6: [with SIMULATION_DURATION.time()] (line 102).  Every execution of
    the view [simulate] observes its duration exactly once, whether the view
    returns or raises at any stage: the registry after the view is the
    registry before it with one observation, the difference of the two
    readings of the performance counter that the timer takes on entering and
    on leaving the block; nothing inside the block reads that counter. *)
Theorem X6_duration_is_always_observed :
  forall (env : Env) (core : Core) (req : App.request) (w : App.world),
    App.prometheus (snd (App.simulate req w))
    = SIMULATION_DURATION_observe (App.prometheus w)
        (perf_counter_at (S (App.perf_reads w)) - perf_counter_at (App.perf_reads w))%float
    /\ App.perf_reads (snd (App.simulate req w)) = S (S (App.perf_reads w)).
Proof.
  intros env core req w.
  unfold App.simulate, App.with_SIMULATION_DURATION_time, App.bindM, App.lift.
  simpl.
  destruct (App.json req) as [body|e]; simpl; [|split; reflexivity].
  destruct (App.define_times _) as [init|e]; simpl; [|split; reflexivity].
  destruct (Simulator_new _ _) as [[simulator store]|e]; simpl; [|split; reflexivity].
  destruct (Simulator_simulate _ _) as [[simulator' store']|e]; simpl; split; reflexivity.
Qed.

(** X7: the log and the wall clock of [simulate], by the stage at which the
    view ends (lines 116-124).  A view that ends at the request body or in
    the loop of lines 111-113 reads no wall clock and logs nothing; one that
    ends in the constructor of the simulator has read the clock once and
    logged nothing; one that ends in [simulate()] has logged the build time
    only; a view that returns has logged the build time and then the
    simulation time, each the difference of the two readings around its
    stage. *)
Theorem X7_log_by_stage :
  forall (env : Env) (core : Core) (req : App.request) (w : App.world),
    let w' := snd (App.simulate req w) in
    match initial_conditions req with
    | Raise _ =>
        App.log w' = App.log w /\ App.datetime_reads w' = App.datetime_reads w
    | Ok init =>
        match Simulator_new QRangeStore_new init with
        | Raise _ =>
            App.log w' = App.log w
            /\ App.datetime_reads w' = S (App.datetime_reads w)
        | Ok (simulator, store) =>
            match Simulator_simulate simulator store with
            | Raise _ =>
                App.log w' = (App.log w ++ [build_entry w])%list
                /\ App.datetime_reads w' = S (S (S (App.datetime_reads w)))
            | Ok _ =>
                App.log w' = (App.log w ++ [build_entry w; simulate_entry w])%list
                /\ App.datetime_reads w' = S (S (S (S (App.datetime_reads w))))
            end
        end
    end.
Proof.
  intros env core req w. cbv zeta.
  unfold initial_conditions, App.simulate, App.with_SIMULATION_DURATION_time,
    App.bindM, App.lift, build_entry, simulate_entry.
  simpl.
  destruct (App.json req) as [body|e]; simpl; [|split; reflexivity].
  destruct (App.define_times _) as [init|e]; simpl; [|split; reflexivity].
  destruct (Simulator_new _ _) as [[simulator store]|e]; simpl; [|split; reflexivity].
  destruct (Simulator_simulate _ _) as [[simulator' store']|e]; simpl.
  - rewrite <- app_assoc. split; reflexivity.
  - split; reflexivity.
Qed.

(** ** The table across requests *)

Lemma order_by_id_desc_newest (t : Db.table) (r : Db.Simulation) :
  (forall r', In r' t -> (Db.id r' < Db.id r)%Z) ->
  Db.first (Db.order_by_id_desc (t ++ [r])%list) = Some r.
Proof.
  intros Hlt. unfold Db.order_by_id_desc. rewrite fold_right_app. simpl.
  assert (H : exists rest, fold_right Db.insert_desc [r] t = r :: rest).
  { induction t as [|x t IH]; simpl; [now exists []|].
    destruct IH as [rest ->]; [intros r' Hin; apply Hlt; now right|].
    simpl.
    destruct (Z.leb_spec (Db.id r) (Db.id x)) as [Hle|_].
    - specialize (Hlt x (or_introl eq_refl)). lia.
    - eauto. }
  destruct H as [rest ->]. reflexivity.
Qed.

(** X8: a run can be read back.  On any table whose keys are below the
    greatest rowid 2^63 - 1, whatever its rows are, when [POST /simulation]
    succeeds with a document, the [GET /simulation] that follows returns the
    text that was stored for that document ([json.dumps] of it): the new row
    gets a key above every key in use (lines 127-129), so it is the first in
    the order of line 96. *)
Theorem X8_get_after_post_returns_the_run :
  forall (env : Env) (core : Core) (req : App.request) (w : App.world)
         (doc : value) (j : result value) (st : option float),
    keys_below_max (App.simulations w) ->
    is_post_simulation req = true ->
    run_core req = Ok doc ->
    fst (App.wsgi_app req w) = App.mkResponse 200 (App.ReturnJson doc)
    /\ fst (App.wsgi_app (App.mkRequest "GET" "/simulation" j st)
              (snd (App.wsgi_app req w)))
       = App.mkResponse 200 (App.ReturnStr (dumps doc)).
Proof.
  intros env core req w doc j st _ Hpost Hrun.
  pose proof (wsgi_app_post core req w Hpost) as Hw.
  rewrite Hrun in Hw. destruct Hw as [Hresp Htab].
  split; [exact Hresp|].
  destruct (wsgi_app_view core (App.mkRequest "GET" "/simulation" j st)
              (snd (App.wsgi_app req w))) as [Hget _].
  rewrite Hget. simpl.
  rewrite Htab. unfold Db.add_commit.
  rewrite order_by_id_desc_newest; [reflexivity|].
  intros r' Hin. simpl. now apply next_id_greater.
Qed.

Lemma X8_get_after_post_returns_the_run_witness :
  fst (App.wsgi_app (env := Demo.env) (core := demo_core)
         (Demo.post (VDict two_bodies)) world_with_rows)
  = App.mkResponse 200
      (App.ReturnJson
         (SpecCore.export (SpecCore.store (SpecCore.run Demo.gravity 2 two_bodies_run))))
  /\ fst (App.wsgi_app (env := Demo.env) (core := demo_core)
            (App.mkRequest "GET" "/simulation" (Raise (HTTPException 415)) None)
            (snd (App.wsgi_app (env := Demo.env) (core := demo_core)
                    (Demo.post (VDict two_bodies)) world_with_rows)))
     = App.mkResponse 200
         (App.ReturnStr
            (Demo.print
               (SpecCore.export
                  (SpecCore.store (SpecCore.run Demo.gravity 2 two_bodies_run))))).
Proof.
  apply (@X8_get_after_post_returns_the_run Demo.env demo_core
           (Demo.post (VDict two_bodies)) world_with_rows
           (SpecCore.export (SpecCore.store (SpecCore.run Demo.gravity 2 two_bodies_run)))
           (Raise (HTTPException 415)) None).
  - intros r [<-|[<-|[]]]; reflexivity.
  - reflexivity.
  - vm_compute. reflexivity.
Defined.

(** X9: the table only grows.  Over any sequence of requests, from any
    state, every row that was in the table is still there, unchanged and in
    its place; the rows after them are one per successful
    [POST /simulation], in order, each holding the serialization of the
    document that its request returned.  No request deletes or rewrites a
    stored run. *)
Theorem X9_table_is_append_only :
  forall (env : Env) (core : Core) (reqs : list App.request) (w : App.world),
    exists added : Db.table,
      App.simulations (snd (App.serve reqs w)) = (App.simulations w ++ added)%list
      /\ map Db.data added = map dumps (posted_documents reqs (fst (App.serve reqs w))).
Proof.
  intros env core reqs. induction reqs as [|req reqs IH]; intros w; simpl.
  - exists []. split; [now rewrite app_nil_r|reflexivity].
  - pose proof (wsgi_app_table core req w) as Htab.
    destruct (App.wsgi_app req w) as [resp w1]. simpl in Htab.
    destruct (IH w1) as [added [Hadd Hdata]].
    destruct (App.serve reqs w1) as [resps w2]. simpl in *.
    destruct (posted req resp) as [doc|].
    + exists (Db.mkSimulation (Db.next_id (App.simulations w)) (dumps doc) :: added).
      split.
      * rewrite Hadd, Htab. unfold Db.add_commit. now rewrite <- app_assoc.
      * simpl. now rewrite Hdata.
    + exists added. split; [now rewrite Hadd, Htab|exact Hdata].
Qed.

(** X10: an error response means that nothing was stored.  Whenever the
    response to a request has a status other than 200, whatever the request
    and whatever made it fail (no JSON body, a body or an agent of the wrong
    type, the constructor of the simulator, the simulation), the table after
    the request is the table before it. *)
Theorem X10_error_response_stores_nothing :
  forall (env : Env) (core : Core) (req : App.request) (w : App.world),
    App.status_code (fst (App.wsgi_app req w)) <> 200%Z ->
    App.simulations (snd (App.wsgi_app req w)) = App.simulations w.
Proof.
  intros env core req w Hstatus.
  destruct (is_post_simulation req) eqn:Hpost; [|now apply wsgi_app_other].
  pose proof (wsgi_app_post core req w Hpost) as Hw.
  destruct (run_core req) as [doc|e]; destruct Hw as [Hresp Htab]; [|exact Htab].
  rewrite Hresp in Hstatus. simpl in Hstatus. congruence.
Qed.

Lemma X10_error_response_stores_nothing_witness :
  App.simulations
    (snd (App.wsgi_app (env := Demo.env) (core := demo_core)
            (Demo.post (VDict coincident_bodies)) Demo.world0))
  = App.simulations Demo.world0.
Proof.
  apply (@X10_error_response_stores_nothing Demo.env demo_core
           (Demo.post (VDict coincident_bodies)) Demo.world0).
  vm_compute. discriminate.
Defined.

Lemma fold_max_le (t : Db.table) (z b : Z) :
  (z <= b)%Z -> (forall r, In r t -> (Db.id r <= b)%Z) ->
  (fold_right (fun r' acc => Z.max (Db.id r') acc) z t <= b)%Z.
Proof.
  intros Hz. induction t as [|r t IH]; simpl; intros Ht; [exact Hz|].
  apply Z.max_lub; [apply Ht; now left|apply IH; intros r' Hin; apply Ht; now right].
Qed.

Lemma ids_from_one_bounds (t : Db.table) :
  ids_from_one t ->
  (forall r, In r t -> (Db.id r <= Z.of_nat (List.length t))%Z)
  /\ (t <> [] -> exists r, In r t /\ Db.id r = Z.of_nat (List.length t)).
Proof.
  unfold ids_from_one. intros H. split.
  - intros r Hin. apply (in_map Db.id) in Hin. rewrite H in Hin.
    apply in_map_iff in Hin. destruct Hin as (k & <- & Hk).
    apply in_seq in Hk. lia.
  - intros Hne.
    assert (Hin : In (Z.of_nat (List.length t)) (map Db.id t)).
    { rewrite H. apply in_map, in_seq. destruct t; [congruence|simpl; lia]. }
    apply in_map_iff in Hin. destruct Hin as (r & Hid & Hin). eauto.
Qed.

Lemma next_id_ids_from_one (t : Db.table) :
  ids_from_one t -> Db.next_id t = Z.of_nat (S (List.length t)).
Proof.
  intros H. destruct (ids_from_one_bounds H) as [Hle Hmax].
  destruct t as [|r0 t]; [reflexivity|].
  destruct (Hmax ltac:(discriminate)) as (r & Hin & Hid).
  unfold Db.next_id.
  destruct (fold_max_ge t (Db.id r0)) as [Hz Ht].
  assert (Hup : (fold_right (fun r' acc => Z.max (Db.id r') acc) (Db.id r0) t
                 <= Z.of_nat (List.length (r0 :: t)))%Z).
  { apply fold_max_le; [apply Hle; now left|intros r' Hr'; apply Hle; now right]. }
  assert (Hlow : (Db.id r <= fold_right (fun r' acc => Z.max (Db.id r') acc) (Db.id r0) t)%Z).
  { destruct Hin as [<-|Hin]; [exact Hz|now apply Ht]. }
  lia.
Qed.

Lemma add_commit_ids_from_one (t : Db.table) (d : string) :
  ids_from_one t -> ids_from_one (Db.add_commit t d).
Proof.
  intros H. pose proof (next_id_ids_from_one H) as Hnext.
  unfold ids_from_one, Db.add_commit in *.
  rewrite map_app, length_app. simpl.
  rewrite Nat.add_1_r, seq_S, map_app, H. simpl.
  now rewrite Hnext.
Qed.

Lemma serve_ids_from_one (env : Env) (core : Core) (reqs : list App.request) :
  forall w,
    ids_from_one (App.simulations w) ->
    ids_from_one (App.simulations (snd (App.serve reqs w))).
Proof.
  induction reqs as [|req reqs IH]; intros w Hw; simpl; [exact Hw|].
  pose proof (wsgi_app_table core req w) as Htab.
  destruct (App.wsgi_app req w) as [resp w1]. simpl in Htab.
  assert (Hw1 : ids_from_one (App.simulations w1)).
  { rewrite Htab. destruct (posted req resp); auto using add_commit_ids_from_one. }
  specialize (IH w1 Hw1).
  destruct (App.serve reqs w1) as [resps w2]. exact IH.
Qed.

(** X11: the keys of the stored runs.  After any sequence of requests served
    from a new database, the k-th successful [POST /simulation] is stored
    under the key k: the keys of the table are 1, 2, ..., n in the order of
    commitment, n being the number of successful runs, so no two rows share
    a key. *)
Theorem X11_ids_count_successful_runs :
  forall (env : Env) (core : Core) (r : registry) (reqs : list App.request),
    let session := App.serve reqs (App.initial_world r) in
    let n := List.length (posted_documents reqs (fst session)) in
    map Db.id (App.simulations (snd session)) = map Z.of_nat (seq 1 n)
    /\ NoDup (map Db.id (App.simulations (snd session))).
Proof.
  intros env core r reqs session n.
  pose proof (serve_ids_from_one core reqs (App.initial_world r) eq_refl) as Hids.
  destruct (serve_table core reqs (App.initial_world r) I) as [_ Hdata].
  fold session in Hids, Hdata. simpl in Hdata.
  assert (Hlen : List.length (App.simulations (snd session)) = n).
  { unfold n. rewrite <- (length_map Db.data), Hdata. apply length_map. }
  unfold ids_from_one in Hids. rewrite Hlen in Hids.
  split; [exact Hids|].
  rewrite Hids. clear. generalize 1. induction n as [|n IH]; intros k; simpl.
  - constructor.
  - constructor; [|apply IH].
    intros Hin. apply in_map_iff in Hin. destruct Hin as (m & Hm & Hin).
    apply in_seq in Hin. lia.
Qed.

(** ** Independence of runs *)






(** The same two requests against a core that keeps one store for the whole
    process: the second run finds the records of the first in its store and
    fails on its first append, where the first run returned a document. *)
Example shared_store_breaks_independence :
  let req := Demo.post (VDict two_bodies) in
  let first := run_core (core := Objects.core_with Demo.gravity 2 Objects.shared_store [])
                 req in
  let memory := Objects.memory_after Demo.gravity 2 Objects.shared_store [] req in
  let second := run_core (core := Objects.core_with Demo.gravity 2 Objects.shared_store
                                    memory) req in
  is_ok first = true /\ second = Raise IndexingError.
Proof. vm_compute. split; reflexivity. Qed.

(** Against the core of the design document the second run, in the memory
    the first has left, returns what the first returned. *)
Example new_store_keeps_independence :
  let req := Demo.post (VDict two_bodies) in
  let first := run_core (core := Objects.core_in Demo.gravity 2 []) req in
  let memory := Objects.memory_after Demo.gravity 2 Objects.new_store [] req in
  let second := run_core (core := Objects.core_in Demo.gravity 2 memory) req in
  is_ok first = true /\ second = first /\ List.length memory = 2.
Proof. vm_compute. repeat split; reflexivity. Qed.
